(** * The DDL catalog loader of yo ([loaders/parser.go])

    A shallow embedding of [NewSpannerLoaderFromDDL] and of the accessors of
    [SpannerLoaderFromDDL], followed by the properties of the loader.

    Conventions.
    - A Go function returning [(T, error)] that may also panic is a value of
      [result T]: [Ret] for [(v, nil)], [Fail msg] for [(nil, err)] with
      [err.Error() = msg], [Panic] for a run-time panic.
    - A Go [map[string]V] is a [gmap string V]; indexing a missing key yields
      the zero value of [V]; [range] over a map visits the entries in an
      order the language leaves unspecified.
    - Go [int] is [Z]; slice positions are far below 2^63, so [i + 1] never
      wraps.
    - The memefish parser and its syntax tree are an external library: the
      tree is given as inductive types carrying the fields the loader reads,
      parsing and rendering are operations of the class [External]. *)

From Stdlib Require Import ZArith String List Permutation DecimalString DecimalZ.
From stdpp Require Import gmap strings list fin_maps.

Local Open Scope string_scope.
Local Open Scope list_scope.
Local Open Scope Z_scope.

(** ** Outcomes of Go calls *)

Inductive panic : Type :=
  | NilDereference        (* invalid memory address or nil pointer dereference *)
  | InterfaceConversion.  (* failed type assertion [x.(T)] without comma-ok *)

Inductive result (A : Type) : Type :=
  | Ret (a : A)
  | Fail (err : string)
  | Panic (p : panic).

Arguments Ret {A} a.
Arguments Fail {A} err.
Arguments Panic {A} p.

#[export] Instance result_bind : MBind result := fun A B k r =>
  match r with
  | Ret a => k a
  | Fail e => Fail e
  | Panic p => Panic p
  end.

(** Zero values ([*new(T)]). *)
Class Zero (T : Type) : Type := zero : T.

#[export] Instance string_zero : Zero string := "".

(** ** The memefish syntax tree (package [ast]) *)

Module ast.

Record Ident : Type := { Name : string }.

Record IndexKey : Type := { ik_Name : Ident }.

Record Storing : Type := { Columns : list Ident }.

Record CreateTable : Type := {
  ct_Name : Ident;
  ct_PrimaryKeys : list IndexKey
}.

Record CreateIndex : Type := {
  ci_Unique : bool;
  ci_Name : Ident;
  ci_TableName : Ident;
  ci_Keys : list IndexKey;
  ci_Storing : option Storing      (* optional: nil when absent *)
}.

(** Operands of [FROM]: the implementors of [ast.TableExpr]. *)
Inductive TableExpr : Type :=
  | Unnest
  | TableName (Table : Ident)
  | PathTableExpr
  | SubQueryTableExpr
  | ParenTableExpr (Source : TableExpr)
  | Join (Left Right : TableExpr).

Record From : Type := { Source : TableExpr }.

(** The implementors of [ast.QueryExpr]. *)
#[warnings="-register-all"]
Inductive QueryExpr : Type :=
  | Select (From : option From)    (* [From] is optional in a SELECT *)
  | SubQuery (Query : QueryExpr)
  | CompoundQuery (Queries : list QueryExpr).

Record CreateView : Type := {
  cv_Name : Ident;
  cv_Query : QueryExpr
}.

(** The implementors of [ast.TableAlteration]. *)
Inductive TableAlteration : Type :=
  | AddColumn (Column : Ident)
  | AddTableConstraint (Constraint : option Ident)
  | DropColumn (Column : Ident)
  | DropConstraint (Constraint : Ident)
  | SetOnDelete
  | AlterColumn (Column : Ident).

Record AlterTable : Type := {
  at_Name : Ident;
  at_TableAlteration : TableAlteration
}.

(** The implementors of [ast.DDL].  [OtherDDL node] stands for every
    further statement node the parser produces ([*ast.CreateDatabase],
    [*ast.DropTable], [*ast.DropIndex], ...); [node] is its Go type name. *)
Inductive DDL : Type :=
  | DDL_CreateTable (val : CreateTable)
  | DDL_CreateIndex (val : CreateIndex)
  | DDL_AlterTable (val : AlterTable)
  | DDL_CreateView (val : CreateView)
  | OtherDDL (node : string).

(** What [%T] prints for a [TableExpr]. *)
Definition goType (t : TableExpr) : string :=
  match t with
  | Unnest => "*ast.Unnest"
  | TableName _ => "*ast.TableName"
  | PathTableExpr => "*ast.PathTableExpr"
  | SubQueryTableExpr => "*ast.SubQueryTableExpr"
  | ParenTableExpr _ => "*ast.ParenTableExpr"
  | Join _ _ => "*ast.Join"
  end.

(** Column types: the implementors of [ast.SchemaType]. *)
Inductive SchemaType : Type :=
  | ScalarSchemaType (Name : string)
  | SizedSchemaType (Name : string) (Max : bool) (Size : Z)
  | ArraySchemaType (Item : SchemaType).

Record GeneratedColumnExpr : Type := { Expr : string }.

Record ColumnDef : Type := {
  cd_Name : Ident;
  cd_Type : SchemaType;
  cd_NotNull : bool;
  cd_GeneratedExpr : option GeneratedColumnExpr   (* optional: nil when absent *)
}.

End ast.

(** ** Package [models] *)

Module models.

(** Modelled from the spec: the declarations of [models.Table],
    [models.Index] and [models.IndexColumn] are not part of the sources at
    hand; the records carry the fields the loader assigns (spec, Data
    Model: Table, Index, IndexColumn), every other field keeps its zero
    value. *)
Record Table : Type := { TableName : string; ManualPk : bool }.

Record Index : Type := { IndexName : string; IsUnique : bool }.

Record IndexColumn : Type := {
  SeqNo : Z;
  Storing : bool;
  ColumnName : string
}.

(** Modelled from the spec: [models.Column] is declared outside the sources
    at hand; the record carries the fields [ColumnList] assigns (spec, Data
    Model: Column). *)
Record Column : Type := {
  FieldOrdinal : Z;
  Col_ColumnName : string;
  DataType : string;
  NotNull : bool;
  IsPrimaryKey : bool;
  IsGenerated : bool
}.

(** [models.Proc] ([models/proc.go]). *)
Record Proc : Type := {
  Name : string;
  ParameterTypes : string;
  ReturnType : string;
  Schema : string;
  FuncName : string;
  GoParameterTypes : list string;
  GoReturnType : string;
  GoNilReturnType : string
}.

End models.

(** ** The collaborators outside the loader *)

Class External : Type := {
  (** [ioutil.ReadFile] *)
  ReadFile : string -> result string;
  (** [(&parser.Parser{...}).ParseDDLs()] on a file path and its buffer *)
  ParseDDLs : string -> string -> result (list ast.DDL);
  (** [(&parser.Parser{...}).ParseDDL()] on a buffer *)
  ParseDDL : string -> result ast.DDL;
  (** [ddl.SQL()] *)
  SQL : ast.DDL -> string
}.

(** ** The loader *)

Record tableOrView : Type := {
  createTable : option ast.CreateTable;
  createIndexes : list ast.CreateIndex;
  createView : option ast.CreateView
}.

#[export] Instance tableOrView_zero : Zero tableOrView :=
  {| createTable := None; createIndexes := []; createView := None |}.

(** The aggregate carries a table-definition. *)
Definition hasTable (t : tableOrView) : bool :=
  match createTable t with
  | Some _ => true
  | None => false
  end.

Record SpannerLoaderFromDDL : Type := {
  tables : gmap string tableOrView
}.

(** [m[k]]: the entry, or the zero value when [k] is missing. *)
Definition index_map {V : Type} `{Zero V} (m : gmap string V) (k : string) : V :=
  match m !! k with
  | Some v => v
  | None => zero
  end.

(** [firstOrDefault] *)
Definition firstOrDefault {T : Type} `{Zero T} (s : list T) : T :=
  match s with
  | [] => zero
  | x :: _ => x
  end.

(** [fmt.Errorf("table '%s' is undefined, but got '%s'", name, sql)] *)
Definition errUndefinedTable (name sql : string) : string :=
  "table '" +:+ name +:+ "' is undefined, but got '" +:+ sql +:+ "'".

(** [fmt.Errorf("stmt should be CreateTable, CreateIndex or
    AlterTableAddConstraint, but got '%s'", sql)] *)
Definition errUnsupportedStmt (sql : string) : string :=
  "stmt should be CreateTable, CreateIndex or AlterTableAddConstraint, but got '"
  +:+ sql +:+ "'".

(** [fmt.Errorf("view with join is not supported")] *)
Definition errViewWithJoin : string := "view with join is not supported".

(** [fmt.Errorf("unknown source type: %T", from)] *)
Definition errUnknownSource (from : ast.TableExpr) : string :=
  "unknown source type: " +:+ ast.goType from.

(** ** Vocabulary of the statements below *)

(** The table a create-index statement refers to. *)
Definition target (ix : ast.CreateIndex) : string :=
  ast.Name (ast.ci_TableName ix).

Definition isAddTableConstraint (a : ast.TableAlteration) : bool :=
  match a with
  | ast.AddTableConstraint _ => true
  | _ => false
  end.

(** No alter-table statement other than add-constraint. *)
Definition acceptedAlter (ddl : ast.DDL) : bool :=
  match ddl with
  | ast.DDL_AlterTable val => isAddTableConstraint (ast.at_TableAlteration val)
  | _ => true
  end.

(** Every create-index statement comes after a create-table statement of
    its target; [declared] are the tables declared so far. *)
Fixpoint tablesPrecedeIndexes (declared : list string) (ddls : list ast.DDL) : bool :=
  match ddls with
  | [] => true
  | ast.DDL_CreateTable ct :: rest =>
      tablesPrecedeIndexes (ast.Name (ast.ct_Name ct) :: declared) rest
  | ast.DDL_CreateIndex ix :: rest =>
      existsb (String.eqb (target ix)) declared && tablesPrecedeIndexes declared rest
  | _ :: rest => tablesPrecedeIndexes declared rest
  end.

(** The create-index statements on table [name], in declaration order. *)
Fixpoint indexesOn (name : string) (ddls : list ast.DDL) : list ast.CreateIndex :=
  match ddls with
  | [] => []
  | ast.DDL_CreateIndex ix :: rest =>
      if String.eqb (target ix) name then ix :: indexesOn name rest
      else indexesOn name rest
  | _ :: rest => indexesOn name rest
  end.

(** The descriptor of a key column with sequence number [n]. *)
Definition keyColumn (n : Z) (c : ast.IndexKey) : models.IndexColumn :=
  {| models.SeqNo := n;
     models.Storing := false;
     models.ColumnName := ast.Name (ast.ik_Name c) |}.

(** Key columns in declared order, numbered 1, 2, ..., n. *)
Definition keyColumns (keys : list ast.IndexKey) : list models.IndexColumn :=
  imap (fun i c => keyColumn (Z.of_nat i + 1) c) keys.

(** The descriptor of a storing column: sequence number 0, flag set. *)
Definition storingColumn (c : ast.Ident) : models.IndexColumn :=
  {| models.SeqNo := 0;
     models.Storing := true;
     models.ColumnName := ast.Name c |}.

(** Storing columns of an index in declared order; none without a
    [STORING] clause. *)
Definition storingColumns (ix : ast.CreateIndex) : list models.IndexColumn :=
  match ast.ci_Storing ix with
  | Some st => map storingColumn (ast.Columns st)
  | None => []
  end.

Definition tableDescriptor (ct : ast.CreateTable) : models.Table :=
  {| models.TableName := ast.Name (ast.ct_Name ct); models.ManualPk := true |}.

Definition indexDescriptor (ix : ast.CreateIndex) : models.Index :=
  {| models.IndexName := ast.Name (ast.ci_Name ix);
     models.IsUnique := ast.ci_Unique ix |}.

Definition isTableName (t : ast.TableExpr) : bool :=
  match t with
  | ast.TableName _ => true
  | _ => false
  end.

Definition isJoin (t : ast.TableExpr) : bool :=
  match t with
  | ast.Join _ _ => true
  | _ => false
  end.

(** What the primary-key list is once the aggregate to read is chosen. *)
Definition primaryKeysOf (tbl : tableOrView) : result (list models.IndexColumn) :=
  match createTable tbl with
  | None => Panic NilDereference
  | Some ct => Ret (keyColumns (ast.ct_PrimaryKeys ct))
  end.

(** The descriptors of the aggregates that carry a table-definition. *)
Definition tableDescriptors (entries : list tableOrView) : list models.Table :=
  omap (fun t => tableDescriptor <$> createTable t) entries.

Section Loader.
Context `{External}.

(** The body of the [for _, ddl := range ddls] loop of
    [NewSpannerLoaderFromDDL]: [Ret] is falling out of the [switch] (or
    [continue]), [Fail] the early [return nil, err]. *)
Definition switchDDL (tables : gmap string tableOrView) (ddl : ast.DDL)
  : result (gmap string tableOrView) :=
  match ddl with
  | ast.DDL_CreateTable val =>
      let name := ast.Name (ast.ct_Name val) in
      let v := index_map tables name in
      Ret (<[name := {| createTable := Some val;
                        createIndexes := createIndexes v;
                        createView := createView v |}]> tables)
  | ast.DDL_CreateIndex val =>
      let name := ast.Name (ast.ci_TableName val) in
      match tables !! name with
      | None =>
          Fail (errUndefinedTable name (SQL ddl))
      | Some v =>
          Ret (<[name := {| createTable := createTable v;
                            createIndexes := createIndexes v ++ [val];
                            createView := createView v |}]> tables)
      end
  | ast.DDL_AlterTable val =>
      match ast.at_TableAlteration val with
      | ast.AddTableConstraint _ => Ret tables
      | _ => Fail (errUnsupportedStmt (SQL ddl))
      end
  | ast.DDL_CreateView val =>
      let name := ast.Name (ast.cv_Name val) in
      let v := index_map tables name in
      Ret (<[name := {| createTable := createTable v;
                        createIndexes := createIndexes v;
                        createView := Some val |}]> tables)
  | ast.OtherDDL _ => Ret tables
  end.

(** The loop itself. *)
Fixpoint rangeDDLs (tables : gmap string tableOrView) (ddls : list ast.DDL)
  : result (gmap string tableOrView) :=
  match ddls with
  | [] => Ret tables
  | ddl :: rest =>
      match switchDDL tables ddl with
      | Ret tables' => rangeDDLs tables' rest
      | Fail e => Fail e
      | Panic p => Panic p
      end
  end.

Definition NewSpannerLoaderFromDDL (fpath : string) : result SpannerLoaderFromDDL :=
  b ← ReadFile fpath;
  ddls ← ParseDDLs fpath b;
  tables ← rangeDDLs ∅ ddls;
  Ret {| tables := tables |}.

(** [TableList]: the loop over the entries in the order [range] happens to
    deliver them; [t.createTable.Name.Name] dereferences [t.createTable]. *)
Fixpoint TableList_range (acc : list models.Table) (entries : list tableOrView)
  : result (list models.Table) :=
  match entries with
  | [] => Ret acc
  | t :: rest =>
      match createTable t with
      | None => Panic NilDereference
      | Some ct =>
          TableList_range
            (acc ++ [{| models.TableName := ast.Name (ast.ct_Name ct);
                        models.ManualPk := true |}]) rest
      end
  end.

(** [range s.tables] may deliver the entries in any order. *)
Definition map_range (s : SpannerLoaderFromDDL) (order : list (string * tableOrView)) : Prop :=
  order ≡ₚ map_to_list (tables s).

(** [TableList s r]: [r] is a possible outcome of [s.TableList()]. *)
Definition TableList (s : SpannerLoaderFromDDL) (r : result (list models.Table)) : Prop :=
  exists order, map_range s order /\ TableList_range [] (order.*2) = r.

(** [for _, index := range ... { indexes = append(indexes, ...) }] *)
Fixpoint IndexList_range (indexes : list models.Index) (ixs : list ast.CreateIndex)
  : list models.Index :=
  match ixs with
  | [] => indexes
  | index :: rest =>
      IndexList_range
        (indexes ++ [{| models.IndexName := ast.Name (ast.ci_Name index);
                        models.IsUnique := ast.ci_Unique index |}]) rest
  end.

Definition IndexList (s : SpannerLoaderFromDDL) (name : string)
  : result (list models.Index) :=
  Ret (IndexList_range [] (createIndexes (index_map (tables s) name))).

(** [for _, c := range ix.Storing.Columns { cols = append(cols, ...) }] *)
Fixpoint appendStoring (cols : list models.IndexColumn) (columns : list ast.Ident)
  : list models.IndexColumn :=
  match columns with
  | [] => cols
  | c :: rest =>
      appendStoring (cols ++ [{| models.SeqNo := 0;
                                 models.Storing := true;
                                 models.ColumnName := ast.Name c |}]) rest
  end.

(** [for i, c := range keys { cols = append(cols, ...) }] from position
    [i] on; the loop of the index scan and of the primary-key list. *)
Fixpoint appendKeys (i : Z) (cols : list models.IndexColumn) (keys : list ast.IndexKey)
  : list models.IndexColumn :=
  match keys with
  | [] => cols
  | c :: rest =>
      appendKeys (i + 1)
        (cols ++ [{| models.SeqNo := i + 1;
                     models.Storing := false;
                     models.ColumnName := ast.Name (ast.ik_Name c) |}]) rest
  end.

(** The scan of [IndexColumnList] over [s.tables[table].createIndexes]. *)
Fixpoint scanIndexes (index : string) (cols : list models.IndexColumn)
    (ixs : list ast.CreateIndex) : list models.IndexColumn :=
  match ixs with
  | [] => cols
  | ix :: rest =>
      if negb (String.eqb (ast.Name (ast.ci_Name ix)) index)
      then scanIndexes index cols rest                       (* continue *)
      else
        let cols :=
          match ast.ci_Storing ix with
          | Some st => appendStoring cols (ast.Columns st)
          | None => cols
          end in
        appendKeys 0 cols (ast.ci_Keys ix)                     (* break *)
  end.

Definition baseTablesForViewDDL (ddlString : string) : result (list string) :=
  ddl ← ParseDDL ddlString;
  match ddl with
  | ast.DDL_CreateView v =>
      match ast.cv_Query v with
      | ast.Select (Some from) =>
          match ast.Source from with
          | ast.TableName t => Ret [ast.Name t]
          | ast.Join _ _ => Fail errViewWithJoin
          | other => Fail (errUnknownSource other)
          end
      | ast.Select None => Panic NilDereference
      | _ => Panic InterfaceConversion
      end
  | _ => Panic InterfaceConversion
  end.

Definition primaryKeyColumnList (s : SpannerLoaderFromDDL) (table : string)
  : result (list models.IndexColumn) :=
  match tables s !! table with
  | None => Ret []
  | Some tbl =>
      tbl ← match createView tbl with
             | Some v =>
                 sourceTable ← baseTablesForViewDDL (SQL (ast.DDL_CreateView v));
                 Ret (index_map (tables s) (firstOrDefault sourceTable))
             | None => Ret tbl
             end;
      match createTable tbl with
      | None => Panic NilDereference
      | Some ct => Ret (appendKeys 0 [] (ast.ct_PrimaryKeys ct))
      end
  end.

Definition IndexColumnList (s : SpannerLoaderFromDDL) (table index : string)
  : result (list models.IndexColumn) :=
  if String.eqb index "PRIMARY_KEY"
  then primaryKeyColumnList s table
  else Ret (scanIndexes index [] (createIndexes (index_map (tables s) table))).

(** The loop reaches [ix] after a successful prefix and finds no aggregate
    under the name of its table. *)
Definition reachesUndefined (ddls : list ast.DDL) (ix : ast.CreateIndex) : Prop :=
  exists pre suf t,
    ddls = pre ++ ast.DDL_CreateIndex ix :: suf /\
    rangeDDLs ∅ pre = Ret t /\
    t !! target ix = None.

End Loader.

(** ** A concrete schema and parser table for the examples *)

Module Fixture.

Definition ident (s : string) : ast.Ident := {| ast.Name := s |}.
Definition key (s : string) : ast.IndexKey := {| ast.ik_Name := ident s |}.

Fixpoint sqlTableExpr (t : ast.TableExpr) : string :=
  match t with
  | ast.Unnest => "UNNEST([1])"
  | ast.TableName t => ast.Name t
  | ast.PathTableExpr => "t.arr"
  | ast.SubQueryTableExpr => "(SELECT 1)"
  | ast.ParenTableExpr s => "(" +:+ sqlTableExpr s +:+ ")"
  | ast.Join l r => sqlTableExpr l +:+ " INNER JOIN " +:+ sqlTableExpr r
  end.

Fixpoint sqlQuery (q : ast.QueryExpr) : string :=
  match q with
  | ast.Select None => "SELECT 1"
  | ast.Select (Some f) => "SELECT * FROM " +:+ sqlTableExpr (ast.Source f)
  | ast.SubQuery q => "(" +:+ sqlQuery q +:+ ")"
  | ast.CompoundQuery qs => String.concat " UNION ALL " (map sqlQuery qs)
  end.

Definition sqlKeys (keys : list ast.IndexKey) : string :=
  String.concat ", " (map (fun k => ast.Name (ast.ik_Name k)) keys).

Definition sqlAlteration (a : ast.TableAlteration) : string :=
  match a with
  | ast.AddColumn c => "ADD COLUMN " +:+ ast.Name c +:+ " INT64"
  | ast.AddTableConstraint None => "ADD CHECK (TRUE)"
  | ast.AddTableConstraint (Some c) => "ADD CONSTRAINT " +:+ ast.Name c +:+ " CHECK (TRUE)"
  | ast.DropColumn c => "DROP COLUMN " +:+ ast.Name c
  | ast.DropConstraint c => "DROP CONSTRAINT " +:+ ast.Name c
  | ast.SetOnDelete => "SET ON DELETE CASCADE"
  | ast.AlterColumn c => "ALTER COLUMN " +:+ ast.Name c +:+ " INT64"
  end.

(** One statement per further node type. *)
Definition sqlOther (node : string) : string :=
  if String.eqb node "*ast.DropTable" then "DROP TABLE Singers"
  else if String.eqb node "*ast.DropIndex" then "DROP INDEX AlbumsByYear"
  else "DROP VIEW SingersView".

Definition sqlDDL (ddl : ast.DDL) : string :=
  match ddl with
  | ast.DDL_CreateTable t =>
      "CREATE TABLE " +:+ ast.Name (ast.ct_Name t) +:+ " (...) PRIMARY KEY ("
      +:+ sqlKeys (ast.ct_PrimaryKeys t) +:+ ")"
  | ast.DDL_CreateIndex i =>
      "CREATE INDEX " +:+ ast.Name (ast.ci_Name i) +:+ " ON "
      +:+ ast.Name (ast.ci_TableName i) +:+ " (" +:+ sqlKeys (ast.ci_Keys i) +:+ ")"
      +:+ match ast.ci_Storing i with
          | Some st => " STORING (" +:+ String.concat ", " (map ast.Name (ast.Columns st)) +:+ ")"
          | None => ""
          end
  | ast.DDL_AlterTable a =>
      "ALTER TABLE " +:+ ast.Name (ast.at_Name a) +:+ " "
      +:+ sqlAlteration (ast.at_TableAlteration a)
  | ast.DDL_CreateView v =>
      "CREATE VIEW " +:+ ast.Name (ast.cv_Name v) +:+ " SQL SECURITY INVOKER AS "
      +:+ sqlQuery (ast.cv_Query v)
  | ast.OtherDDL node => sqlOther node
  end.

Definition from (t : ast.TableExpr) : ast.QueryExpr :=
  ast.Select (Some {| ast.Source := t |}).

Definition view (name : string) (q : ast.QueryExpr) : ast.CreateView :=
  {| ast.cv_Name := ident name; ast.cv_Query := q |}.

Definition table (name : string) (pk : list string) : ast.CreateTable :=
  {| ast.ct_Name := ident name; ast.ct_PrimaryKeys := map key pk |}.

Definition index (name tbl : string) (unique : bool) (keys storing : list string)
  : ast.CreateIndex :=
  {| ast.ci_Unique := unique;
     ast.ci_Name := ident name;
     ast.ci_TableName := ident tbl;
     ast.ci_Keys := map key keys;
     ast.ci_Storing := match storing with
                       | [] => None
                       | _ => Some {| ast.Columns := map ident storing |}
                       end |}.

Definition alter (name : string) (a : ast.TableAlteration) : ast.AlterTable :=
  {| ast.at_Name := ident name; ast.at_TableAlteration := a |}.

Definition Singers : ast.CreateTable := table "Singers" ["SingerId"].
Definition Albums : ast.CreateTable := table "Albums" ["SingerId"; "AlbumId"].
Definition AlbumsByTitle : ast.CreateIndex :=
  index "AlbumsByTitle" "Albums" false ["Title"; "AlbumId"] ["Label"; "Year"].
Definition AlbumsByYear : ast.CreateIndex :=
  index "AlbumsByYear" "Albums" true ["Year"] [].

Definition SingersView : ast.CreateView :=
  view "SingersView" (from (ast.TableName (ident "Singers"))).
Definition JoinView : ast.CreateView :=
  view "JoinView" (from (ast.Join (ast.TableName (ident "Singers"))
                                  (ast.TableName (ident "Albums")))).
Definition SubqueryView : ast.CreateView :=
  view "SubqueryView" (from ast.SubQueryTableExpr).
Definition OrphanView : ast.CreateView :=
  view "OrphanView" (from (ast.TableName (ident "Missing"))).
(** A view declared under the name of the table [Albums]. *)
Definition AlbumsAsView : ast.CreateView :=
  view "Albums" (from (ast.TableName (ident "Singers"))).

Definition schema : list ast.DDL :=
  [ ast.DDL_CreateTable Singers;
    ast.DDL_CreateTable Albums;
    ast.DDL_AlterTable (alter "Albums" (ast.AddTableConstraint (Some (ident "FK_Singer"))));
    ast.DDL_CreateIndex AlbumsByTitle;
    ast.DDL_CreateIndex AlbumsByYear;
    ast.DDL_CreateView SingersView;
    ast.DDL_CreateView JoinView;
    ast.DDL_CreateView SubqueryView;
    ast.DDL_CreateView OrphanView ].

(** The statements the table-driven parser knows: it inverts [sqlDDL] on
    them and rejects every other text. *)
Definition known : list ast.DDL :=
  schema ++ [ast.DDL_CreateView AlbumsAsView].

Definition sqlFile (ddls : list ast.DDL) : string :=
  String.concat (";" +:+ String (Ascii.ascii_of_nat 10) "") (map sqlDDL ddls).

(** An index ahead of its table. *)
Definition indexFirst : list ast.DDL :=
  [ ast.DDL_CreateIndex AlbumsByYear; ast.DDL_CreateTable Albums ].

(** Table before index, with a rejected alter-table in between. *)
Definition dropColumn : list ast.DDL :=
  [ ast.DDL_CreateTable Albums;
    ast.DDL_AlterTable (alter "Albums" (ast.DropColumn (ident "Label")));
    ast.DDL_CreateIndex AlbumsByYear ].

(** A view under the name of a table. *)
Definition nameClash : list ast.DDL :=
  [ ast.DDL_CreateTable Singers;
    ast.DDL_CreateTable Albums;
    ast.DDL_CreateView AlbumsAsView ].

Definition twoTables : list ast.DDL :=
  [ ast.DDL_CreateTable Singers; ast.DDL_CreateTable Albums ].

Definition dropTable : list ast.DDL := [ ast.OtherDDL "*ast.DropTable" ].

Definition files : list (string * list ast.DDL) :=
  [ ("schema.sql", schema);
    ("index_first.sql", indexFirst);
    ("drop_column.sql", dropColumn);
    ("name_clash.sql", nameClash);
    ("two_tables.sql", twoTables);
    ("drop_table.sql", dropTable) ].

#[export] Instance external : External := {|
  ReadFile fpath :=
    match find (fun f => String.eqb f.1 fpath) files with
    | Some f => Ret (sqlFile f.2)
    | None => Fail ("open " +:+ fpath +:+ ": no such file or directory")
    end;
  ParseDDLs fpath buffer :=
    match find (fun f => String.eqb (sqlFile f.2) buffer) files with
    | Some f => Ret f.2
    | None => Fail (fpath +:+ ": syntax error")
    end;
  ParseDDL buffer :=
    match find (fun d => String.eqb (sqlDDL d) buffer) known with
    | Some d => Ret d
    | None => Fail "syntax error"
    end;
  SQL := sqlDDL
|}.

Definition load (fpath : string) : SpannerLoaderFromDDL :=
  match NewSpannerLoaderFromDDL fpath with
  | Ret s => s
  | _ => {| tables := ∅ |}
  end.

Definition catalog : SpannerLoaderFromDDL := load "schema.sql".
Definition nameClashCatalog : SpannerLoaderFromDDL := load "name_clash.sql".
Definition twoTablesCatalog : SpannerLoaderFromDDL := load "two_tables.sql".

Definition aggregate (ct : option ast.CreateTable) (ixs : list ast.CreateIndex)
    (cv : option ast.CreateView) : tableOrView :=
  {| createTable := ct; createIndexes := ixs; createView := cv |}.

End Fixture.


(** ** The remaining accessors of the loader *)

(** What [ColumnList] reads besides the fields kept in [ast.CreateTable]. *)
Class ColumnSource : Type := {
  (** the field [Columns] of [*ast.CreateTable] *)
  ct_Columns : ast.CreateTable -> list ast.ColumnDef;
  (** [c.Type.SQL()] *)
  TypeSQL : ast.SchemaType -> string
}.

(** [fmt.Sprintf("%d", n)] *)
Definition decimal (n : Z) : string :=
  DecimalString.NilZero.string_of_int (Z.to_int n).

(** [ParamN] *)
Definition ParamN (s : SpannerLoaderFromDDL) (n : Z) : string :=
  "@param" +:+ decimal n.

(** [MaskFunc] *)
Definition MaskFunc (s : SpannerLoaderFromDDL) : string := "?".

(** [for _, pk := range table.PrimaryKeys { check[pk.Name.Name] = struct{}{} }] *)
Fixpoint checkKeys (check : gset string) (pks : list ast.IndexKey) : gset string :=
  match pks with
  | [] => check
  | pk :: rest => checkKeys ({[ ast.Name (ast.ik_Name pk) ]} ∪ check) rest
  end.

Section Columns.
Context `{ColumnSource}.

(** [for i, c := range table.Columns { cols = append(cols, ...) }] from
    position [i] on. *)
Fixpoint ColumnList_range (check : gset string) (i : Z) (cols : list models.Column)
    (columns : list ast.ColumnDef) : list models.Column :=
  match columns with
  | [] => cols
  | c :: rest =>
      ColumnList_range check (i + 1)
        (cols ++ [{| models.FieldOrdinal := i + 1;
                     models.Col_ColumnName := ast.Name (ast.cd_Name c);
                     models.DataType := TypeSQL (ast.cd_Type c);
                     models.NotNull := ast.cd_NotNull c;
                     models.IsPrimaryKey :=
                       bool_decide (ast.Name (ast.cd_Name c) ∈ check);
                     models.IsGenerated :=
                       match ast.cd_GeneratedExpr c with
                       | Some _ => true
                       | None => false
                       end |}]) rest
  end.

Definition ColumnList (s : SpannerLoaderFromDDL) (name : string)
  : result (list models.Column) :=
  match createTable (index_map (tables s) name) with
  | None => Panic NilDereference          (* [table.PrimaryKeys] on a nil table *)
  | Some table =>
      let check := checkKeys ∅ (ast.ct_PrimaryKeys table) in
      Ret (ColumnList_range check 0 [] (ct_Columns table))
  end.

End Columns.

(** ** [ProcsBySchema] ([models/proc.go]) *)

(** The rows of a result set as [q.Next()] delivers them, each with the
    outcome of [q.Scan] into three strings. *)
Class Database : Type := {
  (** [db.Query(sqlstr, schema)] *)
  Query : string -> string -> result (list (result (string * string * string)))
}.

Definition sqlstr : string :=
  "SELECT p.proname, oidvectortypes(p.proargtypes), pg_get_function_result(p.oid) "
  +:+ "FROM pg_proc p "
  +:+ "INNER JOIN pg_namespace n ON (p.pronamespace = n.oid) "
  +:+ "WHERE n.nspname = $1 ".

(** [for q.Next() { ... res = append(res, &p) }] *)
Fixpoint ProcsBySchema_rows (res : list models.Proc)
    (rows : list (result (string * string * string))) : result (list models.Proc) :=
  match rows with
  | [] => Ret res
  | scan :: rest =>
      match scan with
      | Ret (name, parameterTypes, returnType) =>
          ProcsBySchema_rows
            (res ++ [{| models.Name := name;
                        models.ParameterTypes := parameterTypes;
                        models.ReturnType := returnType;
                        models.Schema := "";
                        models.FuncName := "";
                        models.GoParameterTypes := [];
                        models.GoReturnType := "";
                        models.GoNilReturnType := "" |}]) rest
      | Fail err => Fail err
      | Panic p => Panic p
      end
  end.

Definition ProcsBySchema `{Database} (schema : string) : result (list models.Proc) :=
  q ← Query sqlstr schema;
  ProcsBySchema_rows [] q.

(** ** Vocabulary of the further statements *)

(** The statement creates the aggregate of [name], if it has none. *)
Definition declares (name : string) (ddl : ast.DDL) : bool :=
  match ddl with
  | ast.DDL_CreateTable ct => String.eqb (ast.Name (ast.ct_Name ct)) name
  | ast.DDL_CreateView cv => String.eqb (ast.Name (ast.cv_Name cv)) name
  | _ => false
  end.

(** The table-definition the statement gives to [name], if any. *)
Definition tableOf (name : string) (ddl : ast.DDL) : option ast.CreateTable :=
  match ddl with
  | ast.DDL_CreateTable ct =>
      if String.eqb (ast.Name (ast.ct_Name ct)) name then Some ct else None
  | _ => None
  end.

(** The view-definition the statement gives to [name], if any. *)
Definition viewOf (name : string) (ddl : ast.DDL) : option ast.CreateView :=
  match ddl with
  | ast.DDL_CreateView cv =>
      if String.eqb (ast.Name (ast.cv_Name cv)) name then Some cv else None
  | _ => None
  end.

(** The last create-table statement for [name]. *)
Fixpoint lastTable (name : string) (ddls : list ast.DDL) : option ast.CreateTable :=
  match ddls with
  | [] => None
  | ddl :: rest =>
      match lastTable name rest with
      | Some ct => Some ct
      | None => tableOf name ddl
      end
  end.

(** The last create-view statement for [name]. *)
Fixpoint lastView (name : string) (ddls : list ast.DDL) : option ast.CreateView :=
  match ddls with
  | [] => None
  | ddl :: rest =>
      match lastView name rest with
      | Some cv => Some cv
      | None => viewOf name ddl
      end
  end.

(** Every create-index statement comes after a create-table or create-view
    statement of its target; [declared] are the names declared so far. *)
Fixpoint aggregatesPrecedeIndexes (declared : list string) (ddls : list ast.DDL) : bool :=
  match ddls with
  | [] => true
  | ast.DDL_CreateTable ct :: rest =>
      aggregatesPrecedeIndexes (ast.Name (ast.ct_Name ct) :: declared) rest
  | ast.DDL_CreateView cv :: rest =>
      aggregatesPrecedeIndexes (ast.Name (ast.cv_Name cv) :: declared) rest
  | ast.DDL_CreateIndex ix :: rest =>
      existsb (String.eqb (target ix)) declared && aggregatesPrecedeIndexes declared rest
  | _ :: rest => aggregatesPrecedeIndexes declared rest
  end.

(** The aggregate sits under the name its definitions carry. *)
Definition keyedBy (name : string) (tbl : tableOrView) : Prop :=
  (forall ct, createTable tbl = Some ct -> ast.Name (ast.ct_Name ct) = name) /\
  (forall cv, createView tbl = Some cv -> ast.Name (ast.cv_Name cv) = name) /\
  Forall (fun ix => target ix = name) (createIndexes tbl).

Definition isCreateView (ddl : ast.DDL) : bool :=
  match ddl with
  | ast.DDL_CreateView _ => true
  | _ => false
  end.

(** The descriptor [ProcsBySchema] builds from a scanned row. *)
Definition procOfRow (row : string * string * string) : models.Proc :=
  {| models.Name := row.1.1;
     models.ParameterTypes := row.1.2;
     models.ReturnType := row.2;
     models.Schema := "";
     models.FuncName := "";
     models.GoParameterTypes := [];
     models.GoReturnType := "";
     models.GoNilReturnType := "" |}.

(** The names of the declared primary-key columns. *)
Definition keyNames (ct : ast.CreateTable) : list string :=
  (fun k => ast.Name (ast.ik_Name k)) <$> ast.ct_PrimaryKeys ct.

(** The descriptor [ColumnList] gives to the column [c] found at position
    [i] (from 0) of the table [ct]. *)
Definition columnDescriptor `{ColumnSource} (ct : ast.CreateTable) (i : nat)
    (c : ast.ColumnDef) : models.Column :=
  {| models.FieldOrdinal := Z.of_nat i + 1;
     models.Col_ColumnName := ast.Name (ast.cd_Name c);
     models.DataType := TypeSQL (ast.cd_Type c);
     models.NotNull := ast.cd_NotNull c;
     models.IsPrimaryKey := bool_decide (ast.Name (ast.cd_Name c) ∈ keyNames ct);
     models.IsGenerated :=
       match ast.cd_GeneratedExpr c with
       | Some _ => true
       | None => false
       end |}.

(** ** Columns and stored procedures for the examples *)

Module FixtureColumns.

Definition column (name : string) (ty : ast.SchemaType) (notNull generated : bool)
  : ast.ColumnDef :=
  {| ast.cd_Name := Fixture.ident name;
     ast.cd_Type := ty;
     ast.cd_NotNull := notNull;
     ast.cd_GeneratedExpr :=
       if generated then Some {| ast.Expr := "UPPER(Title)" |} else None |}.

Fixpoint sqlType (ty : ast.SchemaType) : string :=
  match ty with
  | ast.ScalarSchemaType name => name
  | ast.SizedSchemaType name true _ => name +:+ "(MAX)"
  | ast.SizedSchemaType name false size => name +:+ "(" +:+ decimal size +:+ ")"
  | ast.ArraySchemaType item => "ARRAY<" +:+ sqlType item +:+ ">"
  end.

Definition SingersColumns : list ast.ColumnDef :=
  [ column "SingerId" (ast.ScalarSchemaType "INT64") true false;
    column "Name" (ast.SizedSchemaType "STRING" false 1024) false false ].

Definition AlbumsColumns : list ast.ColumnDef :=
  [ column "AlbumId" (ast.ScalarSchemaType "INT64") true false;
    column "SingerId" (ast.ScalarSchemaType "INT64") true false;
    column "Title" (ast.SizedSchemaType "STRING" true 0) false false;
    column "TitleUpper" (ast.SizedSchemaType "STRING" true 0) false true;
    column "Tags" (ast.ArraySchemaType (ast.ScalarSchemaType "INT64")) false false ].

#[export] Instance columns : ColumnSource := {|
  ct_Columns ct :=
    if String.eqb (ast.Name (ast.ct_Name ct)) "Albums" then AlbumsColumns
    else if String.eqb (ast.Name (ast.ct_Name ct)) "Singers" then SingersColumns
    else [];
  TypeSQL := sqlType
|}.

(** A database with two procedures in schema [public], a row that does not
    scan in schema [broken], and no other schema. *)
#[export] Instance database : Database := {|
  Query query schema :=
    if negb (String.eqb query sqlstr) then Fail "pq: syntax error"
    else if String.eqb schema "public" then
      Ret [ Ret ("add", "integer, integer", "integer");
            Ret ("now_utc", "", "timestamp without time zone") ]
    else if String.eqb schema "broken" then
      Ret [ Ret ("add", "integer, integer", "integer");
            Fail "sql: Scan error on column index 1: converting NULL to string is unsupported";
            Ret ("now_utc", "", "timestamp without time zone") ]
    else Ret []
|}.

(** A catalog holding a view whose text the parser table does not know. *)
Definition GhostView : ast.CreateView :=
  Fixture.view "Ghost" (Fixture.from (ast.TableName (Fixture.ident "Singers"))).

Definition ghostCatalog : SpannerLoaderFromDDL :=
  {| tables := {[ "Ghost" := Fixture.aggregate None [] (Some GhostView) ]} |}.

Definition AlbumsAggregate : tableOrView :=
  Fixture.aggregate (Some Fixture.Albums)
    [Fixture.AlbumsByTitle; Fixture.AlbumsByYear] None.

Definition twoTablesMap : gmap string tableOrView :=
  tables Fixture.twoTablesCatalog.

Definition schemaMap : gmap string tableOrView := tables Fixture.catalog.

End FixtureColumns.

(** ** Views without a FROM source for the examples *)

Module FixtureViews.

(** A view over a set operation. *)
Definition UnionView : ast.CreateView :=
  Fixture.view "UnionView"
    (ast.CompoundQuery
       [ Fixture.from (ast.TableName (Fixture.ident "Singers"));
         Fixture.from (ast.TableName (Fixture.ident "Albums")) ]).

(** A view over a parenthesised query. *)
Definition ParenView : ast.CreateView :=
  Fixture.view "ParenView"
    (ast.SubQuery (Fixture.from (ast.TableName (Fixture.ident "Singers")))).

(** A view over a SELECT without FROM. *)
Definition ConstView : ast.CreateView :=
  Fixture.view "ConstView" (ast.Select None).

Definition views : list ast.DDL :=
  [ ast.DDL_CreateTable Fixture.Singers;
    ast.DDL_CreateTable Fixture.Albums;
    ast.DDL_CreateView UnionView;
    ast.DDL_CreateView ParenView;
    ast.DDL_CreateView ConstView ].

(** The parser table of [Fixture], extended with the three views. *)
#[export] Instance external : External := {|
  ReadFile := @ReadFile Fixture.external;
  ParseDDLs := @ParseDDLs Fixture.external;
  ParseDDL buffer :=
    match find (fun d => String.eqb (Fixture.sqlDDL d) buffer) (Fixture.known ++ views) with
    | Some d => Ret d
    | None => Fail "syntax error"
    end;
  SQL := Fixture.sqlDDL
|}.

Definition viewsCatalog : SpannerLoaderFromDDL :=
  match rangeDDLs ∅ views with
  | Ret t => {| tables := t |}
  | _ => {| tables := ∅ |}
  end.

End FixtureViews.

(** * Properties of the catalog builder *)

Section Builder.
Context `{External}.

Implicit Types (t : gmap string tableOrView) (ddls pre suf : list ast.DDL).

Lemma rangeDDLs_app t pre suf :
  rangeDDLs t (pre ++ suf) = rangeDDLs t pre ≫= λ t', rangeDDLs t' suf.
Proof.
  revert t. induction pre as [|ddl pre IH]; intros t; simpl; [done|].
  destruct (switchDDL t ddl); simpl; auto.
Qed.

Lemma switchDDL_no_panic t ddl p : switchDDL t ddl ≠ Panic p.
Proof.
  destruct ddl as [val|val|val|val|node]; simpl; try discriminate.
  - destruct (t !! _); discriminate.
  - destruct (ast.at_TableAlteration val); discriminate.
Qed.

Lemma rangeDDLs_no_panic t ddls p : rangeDDLs t ddls ≠ Panic p.
Proof.
  revert t. induction ddls as [|ddl ddls IH]; intros t; simpl; [discriminate|].
  destruct (switchDDL t ddl) as [t1|e1|p1] eqn:E.
  - apply IH.
  - discriminate.
  - by apply switchDDL_no_panic in E.
Qed.

(** A failed build stopped at one statement, after a successful prefix. *)
Lemma rangeDDLs_Fail_inv t ddls e :
  rangeDDLs t ddls = Fail e ->
  exists pre ddl suf t',
    ddls = pre ++ ddl :: suf /\ rangeDDLs t pre = Ret t' /\ switchDDL t' ddl = Fail e.
Proof.
  revert t. induction ddls as [|ddl ddls IH]; intros t; simpl; [discriminate|].
  destruct (switchDDL t ddl) as [t1|e1|p1] eqn:E; intros Hr.
  - destruct (IH _ Hr) as (pre & d & suf & t' & -> & Hpre & Hd).
    exists (ddl :: pre), d, suf, t'. simpl. rewrite E. auto.
  - injection Hr as ->. exists [], ddl, ddls, t. auto.
  - discriminate.
Qed.

Lemma errUnsupported_not_undefined sql name sql' :
  errUnsupportedStmt sql ≠ errUndefinedTable name sql'.
Proof. unfold errUnsupportedStmt, errUndefinedTable. simpl. discriminate. Qed.

(** Only a create-index statement without aggregate raises the
    undefined-table error. *)
Lemma switchDDL_undefined_inv t ddl name sql :
  switchDDL t ddl = Fail (errUndefinedTable name sql) ->
  exists ix, ddl = ast.DDL_CreateIndex ix /\ t !! target ix = None.
Proof.
  destruct ddl as [val|val|val|val|node]; simpl; try discriminate.
  - destruct (t !! _) eqn:E; [discriminate|]. intros _. by exists val.
  - destruct (ast.at_TableAlteration val); try discriminate;
      intros [=Hbad]; by apply errUnsupported_not_undefined in Hbad.
Qed.

Lemma index_map_insert {V} `{Zero V} (m : gmap string V) k k' v :
  index_map (<[k:=v]> m) k' = if decide (k = k') then v else index_map m k'.
Proof. unfold index_map. rewrite lookup_insert. by case_decide. Qed.

Lemma existsb_eqb_elem_of (x : string) (l : list string) :
  existsb (String.eqb x) l = true -> x ∈ l.
Proof.
  intros (y & Hy & ->%String.eqb_eq)%existsb_exists. by apply list_elem_of_In.
Qed.

(** Building from any map [t] in which the [declared] tables have an
    aggregate. *)
Lemma rangeDDLs_attaches ddls : forall t declared,
  (forall n, n ∈ declared -> is_Some (t !! n)) ->
  tablesPrecedeIndexes declared ddls = true ->
  forallb acceptedAlter ddls = true ->
  exists t',
    rangeDDLs t ddls = Ret t' /\
    forall name,
      createIndexes (index_map t' name)
      = createIndexes (index_map t name) ++ indexesOn name ddls.
Proof.
  induction ddls as [|ddl ddls IH]; intros t declared Hdecl Hprec Halt.
  { exists t. split; [done|]. intros name. by rewrite app_nil_r. }
  simpl in Halt. apply andb_prop in Halt as [Hacc Halt].
  destruct ddl as [val|val|val|val|node]; simpl in *.
  - lazymatch goal with
    | |- context [rangeDDLs ?t1 ddls] =>
        destruct (IH t1 (ast.Name (ast.ct_Name val) :: declared))
          as (t' & Hr & Hix); [|exact Hprec|exact Halt|]
    end.
    + intros n [->|Hn]%elem_of_cons; [rewrite lookup_insert_eq; eauto|].
      rewrite lookup_insert. case_decide; eauto.
    + exists t'. split; [exact Hr|]. intros name. rewrite Hix, index_map_insert.
      by case_decide; subst.
  - apply andb_prop in Hprec as [Hin Hprec].
    apply existsb_eqb_elem_of, Hdecl in Hin as [v Hv].
    fold (target val). rewrite Hv.
    lazymatch goal with
    | |- context [rangeDDLs ?t1 ddls] =>
        destruct (IH t1 declared) as (t' & Hr & Hix); [|exact Hprec|exact Halt|]
    end.
    + intros n Hn. rewrite lookup_insert. case_decide; eauto.
    + exists t'. split; [exact Hr|]. intros name. rewrite Hix, index_map_insert.
      destruct (String.eqb_spec (target val) name) as [Heq|Hne].
      * subst name. rewrite decide_True by done. simpl.
        unfold index_map. rewrite Hv. by rewrite <- app_assoc.
      * by rewrite decide_False.
  - destruct (ast.at_TableAlteration val); try discriminate.
    by apply (IH t declared).
  - lazymatch goal with
    | |- context [rangeDDLs ?t1 ddls] =>
        destruct (IH t1 declared) as (t' & Hr & Hix); [|exact Hprec|exact Halt|]
    end.
    + intros n Hn. rewrite lookup_insert. case_decide; eauto.
    + exists t'. split; [exact Hr|]. intros name. rewrite Hix, index_map_insert.
      by case_decide; subst.
  - by apply (IH t declared).
Qed.

(** C2 (amended).  Catalog construction fails with the undefined-table
    error, naming the missing table and the text of the offending
    statement, exactly when the loop reaches a create-index statement whose
    table has no aggregate yet.  When every create-index statement comes
    after the create-table statement of its table and the sequence holds no
    alter-table statement other than add-constraint, construction succeeds
    and every aggregate carries the indexes declared on its name, in
    declaration order, however many there are. *)
Theorem undefined_table_iff_index_before_aggregate ddls :
  (forall ix,
      reachesUndefined ddls ix ->
      rangeDDLs ∅ ddls
      = Fail ("table '" +:+ target ix +:+ "' is undefined, but got '"
              +:+ SQL (ast.DDL_CreateIndex ix) +:+ "'")) /\
  ((exists name sql,
       rangeDDLs ∅ ddls
       = Fail ("table '" +:+ name +:+ "' is undefined, but got '" +:+ sql +:+ "'")) ->
   exists ix, reachesUndefined ddls ix) /\
  (tablesPrecedeIndexes [] ddls = true ->
   forallb acceptedAlter ddls = true ->
   exists t,
     rangeDDLs ∅ ddls = Ret t /\
     forall name, createIndexes (index_map t name) = indexesOn name ddls).
Proof.
  split; [|split].
  - intros ix (pre & suf & t & -> & Hpre & Hnone).
    rewrite rangeDDLs_app, Hpre. simpl. fold (target ix). by rewrite Hnone.
  - intros (name & sql & Hfail).
    apply rangeDDLs_Fail_inv in Hfail as (pre & ddl & suf & t & -> & Hpre & Hsw).
    apply switchDDL_undefined_inv in Hsw as (ix & -> & Hnone).
    exists ix, pre, suf, t. auto.
  - intros Hprec Halt.
    destruct (rangeDDLs_attaches ddls ∅ []) as (t & Hr & Hix); auto.
    { intros n Hn. by apply elem_of_nil in Hn. }
    exists t. split; [exact Hr|]. intros name. rewrite Hix.
    unfold index_map. by rewrite lookup_empty.
Qed.

(** C6.  An alter-table statement that adds a constraint leaves the catalog
    as it is: the loop body returns the map unchanged, and the build of a
    sequence is the build of the sequence without the statement.  An
    alter-table statement of any other kind makes the loop body fail with
    the unsupported-statement error, whose message is "stmt should be
    CreateTable, CreateIndex or AlterTableAddConstraint, but got '", the
    rendered text of the statement and a closing quote, so that the build
    fails with it as soon as the preceding
    statements are processed. *)
Theorem alter_table_add_constraint_skipped_others_rejected
    (val : ast.AlterTable) pre suf :
  let ddl := ast.DDL_AlterTable val in
  if isAddTableConstraint (ast.at_TableAlteration val)
  then
    (forall t, switchDDL t ddl = Ret t) /\
    rangeDDLs ∅ (pre ++ ddl :: suf) = rangeDDLs ∅ (pre ++ suf)
  else
    (forall t,
        switchDDL t ddl
        = Fail ("stmt should be CreateTable, CreateIndex or AlterTableAddConstraint, but got '"
                +:+ SQL ddl +:+ "'")) /\
    rangeDDLs ∅ (pre ++ ddl :: suf)
    = rangeDDLs ∅ pre ≫= λ _,
        Fail ("stmt should be CreateTable, CreateIndex or AlterTableAddConstraint, but got '"
              +:+ SQL ddl +:+ "'").
Proof.
  intros ddl. rewrite !rangeDDLs_app. subst ddl.
  destruct (ast.at_TableAlteration val) eqn:E; simpl; rewrite E;
    (split; [done|]); destruct (rangeDDLs ∅ pre); done.
Qed.

(** C7 (the code at the failing input).  A statement of a kind the switch
    does not list is skipped without an error: the loop body returns the
    map unchanged, the build of a sequence is the build of the sequence
    without the statement, and a lone such statement gives the empty
    catalog. *)
Theorem unlisted_statement_skipped_silently (node : string) pre suf :
  (forall t, switchDDL t (ast.OtherDDL node) = Ret t) /\
  rangeDDLs ∅ (pre ++ ast.OtherDDL node :: suf) = rangeDDLs ∅ (pre ++ suf) /\
  rangeDDLs ∅ [ast.OtherDDL node] = Ret ∅.
Proof.
  split; [done|]. split; [|done].
  rewrite !rangeDDLs_app. by destruct (rangeDDLs ∅ pre).
Qed.

End Builder.

(** * Properties of the schema accessors *)

Section Accessors.
Context `{External}.

Implicit Types (s : SpannerLoaderFromDDL) (tbl : tableOrView).

Lemma appendStoring_spec cols columns :
  appendStoring cols columns = cols ++ map storingColumn columns.
Proof.
  revert cols. induction columns as [|c columns IH]; intros cols; simpl.
  - by rewrite app_nil_r.
  - by rewrite IH, <- app_assoc.
Qed.

Lemma appendKeys_spec i cols keys :
  appendKeys i cols keys
  = cols ++ imap (fun j c => keyColumn (i + Z.of_nat j + 1) c) keys.
Proof.
  revert i cols. induction keys as [|c keys IH]; intros i cols; simpl.
  - by rewrite app_nil_r.
  - rewrite IH, <- app_assoc. simpl. f_equal. f_equal.
    + unfold keyColumn. f_equal. lia.
    + apply imap_ext. intros j k _. simpl. f_equal. lia.
Qed.

Lemma appendKeys_keyColumns cols keys :
  appendKeys 0 cols keys = cols ++ keyColumns keys.
Proof. rewrite appendKeys_spec. f_equal. Qed.

(** The [i]-th key column carries sequence number [i + 1]. *)
Lemma keyColumns_lookup keys (i : nat) :
  keyColumns keys !! i = keyColumn (Z.of_nat i + 1) <$> keys !! i.
Proof. unfold keyColumns. by rewrite list_lookup_imap. Qed.

Lemma keyColumns_length keys : length (keyColumns keys) = length keys.
Proof. unfold keyColumns. by rewrite length_imap. Qed.

Lemma IndexList_range_spec indexes ixs :
  IndexList_range indexes ixs = indexes ++ map indexDescriptor ixs.
Proof.
  revert indexes. induction ixs as [|ix ixs IH]; intros indexes; simpl.
  - by rewrite app_nil_r.
  - by rewrite IH, <- app_assoc.
Qed.

(** The scan skips the indexes of another name. *)
Lemma scanIndexes_skip index cols pre rest :
  Forall (fun j => ast.Name (ast.ci_Name j) ≠ index) pre ->
  scanIndexes index cols (pre ++ rest) = scanIndexes index cols rest.
Proof.
  induction 1 as [|j pre Hj _ IH]; simpl; [done|].
  apply String.eqb_neq in Hj. by rewrite Hj.
Qed.

(** ... and stops at the first index of the name asked for. *)
Lemma scanIndexes_hit index cols ix rest :
  ast.Name (ast.ci_Name ix) = index ->
  scanIndexes index cols (ix :: rest) = cols ++ storingColumns ix ++ keyColumns (ast.ci_Keys ix).
Proof.
  intros Hname%String.eqb_eq. simpl. rewrite Hname. simpl.
  unfold storingColumns. destruct (ast.ci_Storing ix) as [st|].
  - by rewrite appendKeys_keyColumns, appendStoring_spec, <- app_assoc.
  - by rewrite appendKeys_keyColumns.
Qed.

Lemma IndexColumnList_PRIMARY_KEY s table :
  IndexColumnList s table "PRIMARY_KEY" = primaryKeyColumnList s table.
Proof. done. Qed.

Lemma IndexColumnList_other s table index :
  index ≠ "PRIMARY_KEY" ->
  IndexColumnList s table index
  = Ret (scanIndexes index [] (createIndexes (index_map (tables s) table))).
Proof. intros Hne%String.eqb_neq. unfold IndexColumnList. by rewrite Hne. Qed.

(** C3.  For an index name other than PRIMARY_KEY, [IndexColumnList] goes
    through the indexes of the table in declaration order.  At the first
    index of that name it returns the storing columns (sequence number 0,
    storing flag set, declared order) followed by the key columns
    (sequence numbers 1, 2, ..., storing flag clear, declared order), and
    looks no further; when no index has the name the result is empty, and
    not an error. *)
Theorem IndexColumnList_first_index_of_name s table index :
  index ≠ "PRIMARY_KEY" ->
  let ixs := createIndexes (index_map (tables s) table) in
  (forall pre ix suf,
      ixs = pre ++ ix :: suf ->
      Forall (fun j => ast.Name (ast.ci_Name j) ≠ index) pre ->
      ast.Name (ast.ci_Name ix) = index ->
      IndexColumnList s table index
      = Ret (storingColumns ix ++ keyColumns (ast.ci_Keys ix))) /\
  (Forall (fun j => ast.Name (ast.ci_Name j) ≠ index) ixs ->
   IndexColumnList s table index = Ret []).
Proof.
  intros Hne ixs. rewrite IndexColumnList_other by done. fold ixs. split.
  - intros pre ix suf -> Hpre Hname.
    by rewrite scanIndexes_skip, scanIndexes_hit.
  - intros Hall. rewrite <- (app_nil_r ixs). by rewrite scanIndexes_skip.
Qed.

Lemma primaryKeyColumnList_table s table tbl :
  tables s !! table = Some tbl ->
  createView tbl = None ->
  primaryKeyColumnList s table = primaryKeysOf tbl.
Proof.
  intros Htbl Hview. unfold primaryKeyColumnList, primaryKeysOf.
  rewrite Htbl, Hview. simpl.
  destruct (createTable tbl); [|done]. by rewrite appendKeys_keyColumns.
Qed.

Lemma primaryKeyColumnList_view s table tbl v :
  tables s !! table = Some tbl ->
  createView tbl = Some v ->
  primaryKeyColumnList s table
  = sourceTable ← baseTablesForViewDDL (SQL (ast.DDL_CreateView v));
    primaryKeysOf (index_map (tables s) (firstOrDefault sourceTable)).
Proof.
  intros Htbl Hview. unfold primaryKeyColumnList, primaryKeysOf.
  rewrite Htbl, Hview. simpl.
  destruct (baseTablesForViewDDL _) as [sourceTable| |]; simpl; [|done..].
  destruct (createTable _); [|done]. by rewrite appendKeys_keyColumns.
Qed.

(** The resolver answers with a list only for a single table reference,
    and then with that one name. *)
Lemma baseTablesForViewDDL_Ret ddlString sourceTable :
  baseTablesForViewDDL ddlString = Ret sourceTable <->
  exists v base,
    ParseDDL ddlString = Ret (ast.DDL_CreateView v) /\
    ast.cv_Query v = ast.Select (Some {| ast.Source := ast.TableName base |}) /\
    sourceTable = [ast.Name base].
Proof.
  unfold baseTablesForViewDDL. split.
  - destruct (ParseDDL ddlString) as [[ | | |v|]| |]; simpl; try discriminate.
    destruct (ast.cv_Query v) as [[[src]|]| |] eqn:Hq; try discriminate.
    simpl. destruct src as [|base| | | |]; try discriminate.
    intros [= <-]. by exists v, base.
  - intros (v & base & -> & Hq & ->). simpl. by rewrite Hq.
Qed.

Lemma baseTablesForViewDDL_source ddlString v src :
  ParseDDL ddlString = Ret (ast.DDL_CreateView v) ->
  ast.cv_Query v = ast.Select (Some {| ast.Source := src |}) ->
  baseTablesForViewDDL ddlString
  = match src with
    | ast.TableName base => Ret [ast.Name base]
    | ast.Join _ _ => Fail errViewWithJoin
    | _ => Fail (errUnknownSource src)
    end.
Proof.
  intros Hparse Hq. unfold baseTablesForViewDDL. rewrite Hparse. simpl.
  rewrite Hq. simpl. by destruct src.
Qed.

(** Where the resolver panics instead of answering: the statement parsed
    is not a create-view, its query is not a plain SELECT, or the SELECT has
    no FROM clause. *)
Lemma baseTablesForViewDDL_Panic ddlString p :
  baseTablesForViewDDL ddlString = Panic p <->
  ParseDDL ddlString = Panic p \/
  exists ddl,
    ParseDDL ddlString = Ret ddl /\
    match ddl with
    | ast.DDL_CreateView v =>
        match ast.cv_Query v with
        | ast.Select (Some _) => False
        | ast.Select None => p = NilDereference
        | _ => p = InterfaceConversion
        end
    | _ => p = InterfaceConversion
    end.
Proof.
  unfold baseTablesForViewDDL.
  destruct (ParseDDL ddlString) as [ddl|e|p']; simpl.
  - split.
    + intros Hp. right. exists ddl. split; [done|].
      destruct ddl as [ | | |v|]; try congruence.
      destruct (ast.cv_Query v) as [[[src]|]| |]; try congruence.
      simpl in Hp. destruct src; discriminate.
    + intros [Habs|(ddl' & Heq & Hp)]; [discriminate|].
      injection Heq as <-.
      destruct ddl as [ | | |v|]; try congruence.
      destruct (ast.cv_Query v) as [[[src]|]| |]; try congruence. done.
  - split; [discriminate|]. intros [Habs|(ddl & Habs & _)]; discriminate.
  - split; [intros [= ->]; by left|]. intros [[= ->]|(ddl & Habs & _)]; [done|discriminate].
Qed.

(** C1 (amended).  For a name registered with a table-definition and
    without a view-definition, [IndexColumnList] at PRIMARY_KEY returns the
    declared primary-key columns of the table in declared order: the
    column at position [i] (from 0) has sequence number [i + 1], the
    storing flag clear and the declared name; there are as many columns as
    declared keys. *)
Theorem primary_key_of_table_in_declared_order s T tbl ct :
  tables s !! T = Some tbl ->
  createTable tbl = Some ct ->
  createView tbl = None ->
  exists cols,
    IndexColumnList s T "PRIMARY_KEY" = Ret cols /\
    cols = keyColumns (ast.ct_PrimaryKeys ct) /\
    length cols = length (ast.ct_PrimaryKeys ct) /\
    forall (i : nat) k,
      ast.ct_PrimaryKeys ct !! i = Some k ->
      cols !! i = Some {| models.SeqNo := Z.of_nat i + 1;
                          models.Storing := false;
                          models.ColumnName := ast.Name (ast.ik_Name k) |}.
Proof.
  intros Htbl Hct Hview. exists (keyColumns (ast.ct_PrimaryKeys ct)).
  rewrite IndexColumnList_PRIMARY_KEY, (primaryKeyColumnList_table _ _ tbl) by done.
  unfold primaryKeysOf. rewrite Hct. repeat split.
  - apply keyColumns_length.
  - intros i k Hk. by rewrite keyColumns_lookup, Hk.
Qed.

(** C4.  For a view whose stored query parses again to a SELECT from a
    single table reference, and whose base table is registered with a
    table-definition, [IndexColumnList] at PRIMARY_KEY returns the
    primary-key columns of the base table: declared order, sequence
    numbers 1, 2, ..., n. *)
Theorem primary_key_of_view_is_base_table_key s V tbl v v' base btbl ct :
  tables s !! V = Some tbl ->
  createView tbl = Some v ->
  ParseDDL (SQL (ast.DDL_CreateView v)) = Ret (ast.DDL_CreateView v') ->
  ast.cv_Query v' = ast.Select (Some {| ast.Source := ast.TableName base |}) ->
  tables s !! ast.Name base = Some btbl ->
  createTable btbl = Some ct ->
  IndexColumnList s V "PRIMARY_KEY" = Ret (keyColumns (ast.ct_PrimaryKeys ct)).
Proof.
  intros Htbl Hview Hparse Hq Hbase Hct.
  rewrite IndexColumnList_PRIMARY_KEY, (primaryKeyColumnList_view _ _ tbl v) by done.
  rewrite (baseTablesForViewDDL_source _ v' _ Hparse Hq). simpl.
  unfold primaryKeysOf, index_map. by rewrite Hbase, Hct.
Qed.

(** The build stops only with one of its two errors. *)
Lemma rangeDDLs_Fail_kind t ddls e :
  rangeDDLs t ddls = Fail e ->
  (exists name sql, e = errUndefinedTable name sql) \/
  (exists sql, e = errUnsupportedStmt sql).
Proof.
  intros (pre & ddl & suf & t' & _ & _ & Hsw)%rangeDDLs_Fail_inv.
  destruct ddl as [val|val|val|val|node]; simpl in Hsw; try discriminate.
  - destruct (t' !! _); [discriminate|]. injection Hsw as <-. left. eauto.
  - destruct (ast.at_TableAlteration val); try discriminate;
      injection Hsw as <-; right; eauto.
Qed.

(** X19.  For a view whose stored query parses again to a SELECT with a
    FROM source [src]: when [src] is a join, [IndexColumnList] at
    PRIMARY_KEY fails with the error "view with join is not supported";
    when [src] is an UNNEST, a path, a subquery or a parenthesised source
    it fails with the error "unknown source type: " followed by the Go type
    of the source.  The builder accepts every create-view statement, and no
    build fails with an error of either text. *)
Theorem view_source_errors_at_primary_key_resolution s V tbl v v' src :
  tables s !! V = Some tbl ->
  createView tbl = Some v ->
  ParseDDL (SQL (ast.DDL_CreateView v)) = Ret (ast.DDL_CreateView v') ->
  ast.cv_Query v' = ast.Select (Some {| ast.Source := src |}) ->
  (forall left right,
      src = ast.Join left right ->
      IndexColumnList s V "PRIMARY_KEY" = Fail "view with join is not supported") /\
  (src = ast.Unnest ->
   IndexColumnList s V "PRIMARY_KEY" = Fail "unknown source type: *ast.Unnest") /\
  (src = ast.PathTableExpr ->
   IndexColumnList s V "PRIMARY_KEY" = Fail "unknown source type: *ast.PathTableExpr") /\
  (src = ast.SubQueryTableExpr ->
   IndexColumnList s V "PRIMARY_KEY" = Fail "unknown source type: *ast.SubQueryTableExpr") /\
  (forall inner,
      src = ast.ParenTableExpr inner ->
      IndexColumnList s V "PRIMARY_KEY" = Fail "unknown source type: *ast.ParenTableExpr") /\
  (forall t view, exists t', switchDDL t (ast.DDL_CreateView view) = Ret t') /\
  (forall ddls e,
      rangeDDLs ∅ ddls = Fail e ->
      e ≠ "view with join is not supported" /\
      forall shape, e ≠ "unknown source type: " +:+ shape).
Proof.
  intros Htbl Hview Hparse Hq.
  rewrite IndexColumnList_PRIMARY_KEY, (primaryKeyColumnList_view _ _ tbl v) by done.
  rewrite (baseTablesForViewDDL_source _ v' _ Hparse Hq).
  do 5 (split; [intros; subst src; reflexivity|]).
  split.
  - intros t view. simpl. eauto.
  - intros ddls e [(name & sql & ->)|(sql & ->)]%rangeDDLs_Fail_kind;
      (split; [|intros shape]); unfold errUndefinedTable, errUnsupportedStmt;
      simpl; discriminate.
Qed.

(** C5 (the code at the failing inputs).  For a registered view whose
    stored text parses again to a create-view statement, [IndexColumnList]
    at PRIMARY_KEY returns no error but panics when the query of the view
    has no FROM source to look at: at the unchecked assertion to
    [*ast.Select] when the query is a set operation or a parenthesised
    query, at the nil FROM clause when the SELECT has none. *)
Theorem view_query_without_from_source_panics s V tbl v v' :
  tables s !! V = Some tbl ->
  createView tbl = Some v ->
  ParseDDL (SQL (ast.DDL_CreateView v)) = Ret (ast.DDL_CreateView v') ->
  (forall queries,
      ast.cv_Query v' = ast.CompoundQuery queries ->
      IndexColumnList s V "PRIMARY_KEY" = Panic InterfaceConversion) /\
  (forall query,
      ast.cv_Query v' = ast.SubQuery query ->
      IndexColumnList s V "PRIMARY_KEY" = Panic InterfaceConversion) /\
  (ast.cv_Query v' = ast.Select None ->
   IndexColumnList s V "PRIMARY_KEY" = Panic NilDereference).
Proof.
  intros Htbl Hview Hparse.
  rewrite IndexColumnList_PRIMARY_KEY, (primaryKeyColumnList_view _ _ tbl v) by done.
  unfold baseTablesForViewDDL. rewrite Hparse. simpl.
  split; [|split]; [intros queries Hq|intros query Hq|intros Hq]; by rewrite Hq.
Qed.

(** C10.  For a registered view whose stored query parses again to a SELECT
    from the single table reference [base], the aggregate read next is the
    one under the name of [base], taken from the map without a presence
    check: [IndexColumnList] at PRIMARY_KEY panics on a nil
    table-definition exactly when that name is not registered with a
    table-definition (not registered at all, or registered as a view only),
    and returns the key columns of the table otherwise.  The name is the
    first element of the resolver's list; [firstOrDefault] gives the empty
    name for an empty list, which the resolver never returns. *)
Theorem view_base_table_lookup_unguarded s V tbl v v' base :
  tables s !! V = Some tbl ->
  createView tbl = Some v ->
  ParseDDL (SQL (ast.DDL_CreateView v)) = Ret (ast.DDL_CreateView v') ->
  ast.cv_Query v' = ast.Select (Some {| ast.Source := ast.TableName base |}) ->
  (IndexColumnList s V "PRIMARY_KEY" = Panic NilDereference <->
   tables s !! ast.Name base ≫= createTable = None) /\
  (forall ct,
      tables s !! ast.Name base ≫= createTable = Some ct ->
      IndexColumnList s V "PRIMARY_KEY" = Ret (keyColumns (ast.ct_PrimaryKeys ct))) /\
  (forall e, IndexColumnList s V "PRIMARY_KEY" ≠ Fail e) /\
  firstOrDefault (T := string) [] = "" /\
  (forall (name : string) rest, firstOrDefault (name :: rest) = name) /\
  (forall ddlString sourceTable,
      baseTablesForViewDDL ddlString = Ret sourceTable -> sourceTable ≠ []).
Proof.
  intros Htbl Hview Hparse Hq.
  rewrite IndexColumnList_PRIMARY_KEY, (primaryKeyColumnList_view _ _ tbl v) by done.
  rewrite (baseTablesForViewDDL_source _ v' _ Hparse Hq). simpl.
  unfold primaryKeysOf, index_map.
  assert (forall ddlString sourceTable,
             baseTablesForViewDDL ddlString = Ret sourceTable -> sourceTable ≠ [])
    as Hnonempty.
  { intros ddlString sourceTable (v0 & base0 & _ & _ & ->)%baseTablesForViewDDL_Ret.
    discriminate. }
  destruct (tables s !! ast.Name base) as [btbl|]; simpl.
  - destruct (createTable btbl) as [ct|]; repeat split; try done.
    by intros ct' [= ->].
  - repeat split; done.
Qed.

Lemma TableList_range_spec acc entries :
  TableList_range acc entries
  = if forallb hasTable entries
    then Ret (acc ++ tableDescriptors entries)
    else Panic NilDereference.
Proof.
  revert acc. induction entries as [|t entries IH]; intros acc; simpl.
  - by rewrite app_nil_r.
  - unfold hasTable at 1. unfold tableDescriptors. simpl.
    destruct (createTable t) as [ct|]; simpl; [|done].
    rewrite IH. destruct (forallb hasTable entries); [|done].
    by rewrite <- app_assoc.
Qed.

Lemma forallb_Permutation {A} (f : A -> bool) (l1 l2 : list A) :
  l1 ≡ₚ l2 -> forallb f l1 = forallb f l2.
Proof.
  induction 1 as [|x l1 l2 _ IH|x y l|l1 l2 l3 _ IH1 _ IH2]; simpl.
  - done.
  - by rewrite IH.
  - by destruct (f x), (f y).
  - congruence.
Qed.

(** Whatever the order of the range, [TableList] panics when an aggregate
    lacks its table-definition and otherwise lists the descriptors, up to
    the order. *)
Lemma TableList_outcome s r :
  TableList s r ->
  let entries := (map_to_list (tables s)).*2 in
  if forallb hasTable entries
  then exists l, r = Ret l /\ l ≡ₚ tableDescriptors entries
  else r = Panic NilDereference.
Proof.
  intros (order & Hperm & <-) entries. unfold map_range in Hperm.
  rewrite TableList_range_spec.
  assert (order.*2 ≡ₚ entries) as Hperm2 by (by subst entries; rewrite Hperm).
  rewrite (forallb_Permutation _ _ _ Hperm2).
  destruct (forallb hasTable entries); [|done].
  eexists. split; [done|]. simpl. unfold tableDescriptors. by rewrite Hperm2.
Qed.

Lemma TableList_total s : exists r, TableList s r.
Proof.
  exists (TableList_range [] (map_to_list (tables s)).*2).
  exists (map_to_list (tables s)). split; [|done]. by unfold map_range.
Qed.

(** C8 (the code at the failing input).  As soon as one registered name
    has no table-definition, as the name of a view has, every run of
    [TableList] panics on the nil table-definition: the aggregate is not
    left out and no table is listed. *)
Theorem TableList_panics_on_view_only_aggregate s name tbl r :
  tables s !! name = Some tbl ->
  createTable tbl = None ->
  TableList s r ->
  r = Panic NilDereference.
Proof.
  intros Htbl Hnone Hr. apply TableList_outcome in Hr. simpl in Hr.
  destruct (forallb hasTable _) eqn:Hall; [|done].
  rewrite forallb_forall in Hall.
  assert (hasTable tbl = true) as Habs.
  { apply Hall, list_elem_of_In, list_elem_of_fmap.
    exists (name, tbl). split; [done|]. by apply elem_of_map_to_list. }
  unfold hasTable in Habs. by rewrite Hnone in Habs.
Qed.

(** Without such an aggregate every run lists one descriptor, flagged
    manual-primary-key, per aggregate. *)
Lemma TableList_all_tables s r :
  (forall name tbl, tables s !! name = Some tbl -> is_Some (createTable tbl)) ->
  TableList s r ->
  exists l,
    r = Ret l /\
    l ≡ₚ tableDescriptors (map_to_list (tables s)).*2 /\
    Forall (fun d => models.ManualPk d = true) l.
Proof.
  intros Hall Hr. apply TableList_outcome in Hr. simpl in Hr.
  destruct (forallb hasTable _) eqn:Hb.
  - destruct Hr as (l & -> & Hperm). exists l. repeat split; [done|].
    rewrite Hperm. unfold tableDescriptors.
    apply Forall_forall. intros d (t & _ & Ht)%list_elem_of_omap.
    destruct (createTable t); by simplify_eq/=.
  - exfalso. apply not_true_iff_false in Hb. apply Hb, forallb_forall.
    intros t ((name & tbl) & -> & Hin%elem_of_map_to_list)%list_elem_of_In%list_elem_of_fmap.
    simpl. unfold hasTable. by destruct (Hall _ _ Hin) as [ct ->].
Qed.

(** C9 (amended).  Two loads of the same file give the same catalog, and
    on it [IndexList] and [IndexColumnList] give the same answers, with the
    indexes of a table in declaration order.  [TableList] ranges over the
    map in an order that is not fixed: two runs end the same way, with the
    same table descriptors up to their order. *)
Theorem accessors_agree_up_to_table_order fpath s1 s2 :
  NewSpannerLoaderFromDDL fpath = Ret s1 ->
  NewSpannerLoaderFromDDL fpath = Ret s2 ->
  s1 = s2 /\
  (forall name,
      IndexList s1 name = IndexList s2 name /\
      IndexList s1 name
      = Ret (map indexDescriptor (createIndexes (index_map (tables s1) name)))) /\
  (forall table index, IndexColumnList s1 table index = IndexColumnList s2 table index) /\
  (forall r1 r2,
      TableList s1 r1 ->
      TableList s2 r2 ->
      match r1, r2 with
      | Ret l1, Ret l2 => l1 ≡ₚ l2
      | Panic p1, Panic p2 => p1 = p2
      | _, _ => False
      end).
Proof.
  intros H1 H2. assert (s1 = s2) as <- by congruence.
  repeat split.
  - unfold IndexList. by rewrite IndexList_range_spec.
  - intros r1 r2 Hr1%TableList_outcome Hr2%TableList_outcome. simpl in *.
    destruct (forallb hasTable _).
    + destruct Hr1 as (l1 & -> & Hp1), Hr2 as (l2 & -> & Hp2). by rewrite Hp1, Hp2.
    + by subst.
Qed.

End Accessors.

(** * The properties on the example schema *)

Section Examples.
#[local] Existing Instance Fixture.external.

Import Fixture.

(** C1, as stated, fails on a catalog built from DDL: [Albums] is
    registered with its table-definition, whose key is (SingerId,
    AlbumId), and a view of the same name redirects the primary-key list
    to the key of [Singers]. *)
Lemma primary_key_of_table_shadowed_by_view :
  NewSpannerLoaderFromDDL "name_clash.sql" = Ret nameClashCatalog /\
  tables nameClashCatalog !! "Albums" ≫= createTable = Some Albums /\
  IndexColumnList nameClashCatalog "Albums" "PRIMARY_KEY"
  = Ret [keyColumn 1 (key "SingerId")] /\
  IndexColumnList nameClashCatalog "Albums" "PRIMARY_KEY"
  ≠ Ret (keyColumns (ast.ct_PrimaryKeys Albums)).
Proof. repeat split; try (vm_compute; reflexivity). vm_compute. discriminate. Qed.

Lemma primary_key_of_table_in_declared_order_witness :
  tables catalog !! "Albums"
  = Some (aggregate (Some Albums) [AlbumsByTitle; AlbumsByYear] None) /\
  exists cols,
    IndexColumnList catalog "Albums" "PRIMARY_KEY" = Ret cols /\
    cols = keyColumns (ast.ct_PrimaryKeys Albums) /\
    length cols = length (ast.ct_PrimaryKeys Albums) /\
    forall (i : nat) k,
      ast.ct_PrimaryKeys Albums !! i = Some k ->
      cols !! i = Some {| models.SeqNo := Z.of_nat i + 1;
                          models.Storing := false;
                          models.ColumnName := ast.Name (ast.ik_Name k) |}.
Proof.
  split; [vm_compute; reflexivity|].
  apply (primary_key_of_table_in_declared_order catalog "Albums"
           (aggregate (Some Albums) [AlbumsByTitle; AlbumsByYear] None) Albums);
    vm_compute; reflexivity.
Defined.

(** C2, as stated, fails: every index of [dropColumn] comes after its
    table, and construction does not succeed. *)
Lemma tables_before_indexes_yet_build_fails :
  tablesPrecedeIndexes [] dropColumn = true /\
  rangeDDLs ∅ dropColumn
  = Fail "stmt should be CreateTable, CreateIndex or AlterTableAddConstraint, but got 'ALTER TABLE Albums DROP COLUMN Label'" /\
  ~ exists t, rangeDDLs ∅ dropColumn = Ret t.
Proof.
  split; [reflexivity|]. split; [vm_compute; reflexivity|].
  intros [t Ht]. vm_compute in Ht. discriminate.
Qed.

Lemma undefined_table_iff_index_before_aggregate_witness :
  reachesUndefined indexFirst AlbumsByYear /\
  rangeDDLs ∅ indexFirst
  = Fail "table 'Albums' is undefined, but got 'CREATE INDEX AlbumsByYear ON Albums (Year)'" /\
  tablesPrecedeIndexes [] schema = true /\
  forallb acceptedAlter schema = true /\
  exists t,
    rangeDDLs ∅ schema = Ret t /\
    forall name, createIndexes (index_map t name) = indexesOn name schema.
Proof.
  assert (reachesUndefined indexFirst AlbumsByYear) as Hreach.
  { exists [], [ast.DDL_CreateTable Albums], ∅. repeat split. }
  split; [exact Hreach|]. split; [|split; [reflexivity|split; [reflexivity|]]].
  - apply (proj1 (undefined_table_iff_index_before_aggregate indexFirst) _ Hreach).
  - apply (proj2 (proj2 (undefined_table_iff_index_before_aggregate schema)));
      reflexivity.
Defined.

Lemma IndexColumnList_first_index_of_name_witness :
  "AlbumsByYear" ≠ "PRIMARY_KEY" /\
  createIndexes (index_map (tables catalog) "Albums") = [AlbumsByTitle] ++ AlbumsByYear :: [] /\
  IndexColumnList catalog "Albums" "AlbumsByYear"
  = Ret (storingColumns AlbumsByYear ++ keyColumns (ast.ci_Keys AlbumsByYear)) /\
  IndexColumnList catalog "Singers" "AlbumsByYear" = Ret [].
Proof.
  assert ("AlbumsByYear" ≠ "PRIMARY_KEY") as Hne by discriminate.
  split; [exact Hne|]. split; [vm_compute; reflexivity|]. split.
  - apply (proj1 (IndexColumnList_first_index_of_name catalog "Albums" "AlbumsByYear" Hne)
             [AlbumsByTitle] AlbumsByYear []).
    + vm_compute; reflexivity.
    + repeat constructor. discriminate.
    + reflexivity.
  - apply (proj2 (IndexColumnList_first_index_of_name catalog "Singers" "AlbumsByYear" Hne)).
    vm_compute. constructor.
Defined.

(** The index with storing columns of the example schema. *)
Example IndexColumnList_storing_first :
  IndexColumnList catalog "Albums" "AlbumsByTitle"
  = Ret [ storingColumn (ident "Label"); storingColumn (ident "Year");
          keyColumn 1 (key "Title"); keyColumn 2 (key "AlbumId") ].
Proof. vm_compute. reflexivity. Qed.

Lemma primary_key_of_view_is_base_table_key_witness :
  tables catalog !! "SingersView" = Some (aggregate None [] (Some SingersView)) /\
  ParseDDL (SQL (ast.DDL_CreateView SingersView)) = Ret (ast.DDL_CreateView SingersView) /\
  tables catalog !! "Singers" = Some (aggregate (Some Singers) [] None) /\
  IndexColumnList catalog "SingersView" "PRIMARY_KEY"
  = Ret (keyColumns (ast.ct_PrimaryKeys Singers)).
Proof.
  do 3 (split; [vm_compute; reflexivity|]).
  apply (primary_key_of_view_is_base_table_key catalog "SingersView"
           (aggregate None [] (Some SingersView)) SingersView SingersView
           (ident "Singers") (aggregate (Some Singers) [] None) Singers);
    vm_compute; reflexivity.
Defined.

Lemma view_source_errors_at_primary_key_resolution_witness :
  tables catalog !! "JoinView" = Some (aggregate None [] (Some JoinView)) /\
  tables catalog !! "SubqueryView" = Some (aggregate None [] (Some SubqueryView)) /\
  IndexColumnList catalog "JoinView" "PRIMARY_KEY"
  = Fail "view with join is not supported" /\
  IndexColumnList catalog "SubqueryView" "PRIMARY_KEY"
  = Fail "unknown source type: *ast.SubQueryTableExpr".
Proof.
  assert (tables catalog !! "JoinView" = Some (aggregate None [] (Some JoinView)))
    as Hjoin by (vm_compute; reflexivity).
  assert (tables catalog !! "SubqueryView" = Some (aggregate None [] (Some SubqueryView)))
    as Hsub by (vm_compute; reflexivity).
  assert (ParseDDL (SQL (ast.DDL_CreateView JoinView)) = Ret (ast.DDL_CreateView JoinView))
    as Hp1 by (vm_compute; reflexivity).
  assert (ParseDDL (SQL (ast.DDL_CreateView SubqueryView)) = Ret (ast.DDL_CreateView SubqueryView))
    as Hp2 by (vm_compute; reflexivity).
  split; [exact Hjoin|]. split; [exact Hsub|]. split.
  - destruct (view_source_errors_at_primary_key_resolution catalog "JoinView"
                (aggregate None [] (Some JoinView)) JoinView JoinView
                (ast.Join (ast.TableName (ident "Singers")) (ast.TableName (ident "Albums")))
                Hjoin eq_refl Hp1 eq_refl) as (Hj & _).
    apply (Hj _ _ eq_refl).
  - destruct (view_source_errors_at_primary_key_resolution catalog "SubqueryView"
                (aggregate None [] (Some SubqueryView)) SubqueryView SubqueryView
                ast.SubQueryTableExpr Hsub eq_refl Hp2 eq_refl)
      as (_ & _ & _ & Hs & _).
    apply (Hs eq_refl).
Defined.

Lemma TableList_panics_on_view_only_aggregate_witness :
  NewSpannerLoaderFromDDL "schema.sql" = Ret catalog /\
  tables catalog !! "SingersView" = Some (aggregate None [] (Some SingersView)) /\
  TableList catalog (Panic NilDereference) /\
  forall r, TableList catalog r -> r = Panic NilDereference.
Proof.
  split; [vm_compute; reflexivity|]. split; [vm_compute; reflexivity|].
  assert (forall r, TableList catalog r -> r = Panic NilDereference) as Hall.
  { intros r.
    apply (TableList_panics_on_view_only_aggregate catalog "SingersView"
             (aggregate None [] (Some SingersView)) r);
      vm_compute; reflexivity. }
  split; [|exact Hall].
  destruct (TableList_total catalog) as [r Hr]. by rewrite <- (Hall r Hr).
Defined.

(** C9, as stated, fails: on the catalog of two tables [TableList] may list
    them in either order. *)
Lemma TableList_order_not_fixed :
  NewSpannerLoaderFromDDL "two_tables.sql" = Ret twoTablesCatalog /\
  TableList twoTablesCatalog (Ret [tableDescriptor Singers; tableDescriptor Albums]) /\
  TableList twoTablesCatalog (Ret [tableDescriptor Albums; tableDescriptor Singers]) /\
  ~ (forall r1 r2,
        TableList twoTablesCatalog r1 -> TableList twoTablesCatalog r2 -> r1 = r2).
Proof.
  assert (TableList twoTablesCatalog (Ret [tableDescriptor Singers; tableDescriptor Albums]))
    as H1.
  { exists (map_to_list (tables twoTablesCatalog)). split; [by unfold map_range|].
    vm_compute. reflexivity. }
  assert (TableList twoTablesCatalog (Ret [tableDescriptor Albums; tableDescriptor Singers]))
    as H2.
  { exists (reverse (map_to_list (tables twoTablesCatalog))).
    split; [unfold map_range; apply reverse_Permutation|]. vm_compute. reflexivity. }
  split; [vm_compute; reflexivity|]. split; [exact H1|]. split; [exact H2|].
  intros Hdet. specialize (Hdet _ _ H1 H2). vm_compute in Hdet. discriminate.
Qed.

Lemma accessors_agree_up_to_table_order_witness :
  NewSpannerLoaderFromDDL "two_tables.sql" = Ret twoTablesCatalog /\
  (forall name,
      IndexList twoTablesCatalog name
      = Ret (map indexDescriptor (createIndexes (index_map (tables twoTablesCatalog) name)))) /\
  (forall r1 r2,
      TableList twoTablesCatalog r1 ->
      TableList twoTablesCatalog r2 ->
      match r1, r2 with
      | Ret l1, Ret l2 => l1 ≡ₚ l2
      | Panic p1, Panic p2 => p1 = p2
      | _, _ => False
      end).
Proof.
  assert (NewSpannerLoaderFromDDL "two_tables.sql" = Ret twoTablesCatalog) as Hload
    by (vm_compute; reflexivity).
  destruct (accessors_agree_up_to_table_order "two_tables.sql"
              twoTablesCatalog twoTablesCatalog Hload Hload)
    as (_ & Hix & _ & Htl).
  split; [exact Hload|]. split; [|exact Htl].
  intros name. apply (Hix name).
Defined.

Lemma view_base_table_lookup_unguarded_witness :
  tables catalog !! "OrphanView" = Some (aggregate None [] (Some OrphanView)) /\
  ParseDDL (SQL (ast.DDL_CreateView OrphanView)) = Ret (ast.DDL_CreateView OrphanView) /\
  tables catalog !! "Missing" ≫= createTable = None /\
  IndexColumnList catalog "OrphanView" "PRIMARY_KEY" = Panic NilDereference /\
  tables catalog !! "Singers" ≫= createTable = Some Singers /\
  IndexColumnList catalog "SingersView" "PRIMARY_KEY"
  = Ret (keyColumns (ast.ct_PrimaryKeys Singers)).
Proof.
  assert (tables catalog !! "OrphanView" = Some (aggregate None [] (Some OrphanView)))
    as Horphan by (vm_compute; reflexivity).
  assert (ParseDDL (SQL (ast.DDL_CreateView OrphanView)) = Ret (ast.DDL_CreateView OrphanView))
    as Hparse by (vm_compute; reflexivity).
  assert (tables catalog !! "Missing" ≫= createTable = None)
    as Hmissing by (vm_compute; reflexivity).
  assert (tables catalog !! "SingersView" = Some (aggregate None [] (Some SingersView)))
    as Hview by (vm_compute; reflexivity).
  assert (ParseDDL (SQL (ast.DDL_CreateView SingersView)) = Ret (ast.DDL_CreateView SingersView))
    as Hparse' by (vm_compute; reflexivity).
  assert (tables catalog !! "Singers" ≫= createTable = Some Singers)
    as Hsingers by (vm_compute; reflexivity).
  split; [exact Horphan|]. split; [exact Hparse|]. split; [exact Hmissing|]. split.
  - destruct (view_base_table_lookup_unguarded catalog "OrphanView"
                (aggregate None [] (Some OrphanView)) OrphanView OrphanView
                (ident "Missing") Horphan eq_refl Hparse eq_refl) as (Hpanic & _).
    apply (proj2 Hpanic Hmissing).
  - split; [exact Hsingers|].
    destruct (view_base_table_lookup_unguarded catalog "SingersView"
                (aggregate None [] (Some SingersView)) SingersView SingersView
                (ident "Singers") Hview eq_refl Hparse' eq_refl) as (_ & Hret & _).
    apply (Hret Singers Hsingers).
Defined.

Lemma alter_table_add_constraint_skipped_others_rejected_witness :
  rangeDDLs ∅ dropColumn
  = Fail "stmt should be CreateTable, CreateIndex or AlterTableAddConstraint, but got 'ALTER TABLE Albums DROP COLUMN Label'" /\
  rangeDDLs ∅ ([ast.DDL_CreateTable Albums]
               ++ ast.DDL_AlterTable (alter "Albums" (ast.AddTableConstraint (Some (ident "FK_Singer"))))
               :: [ast.DDL_CreateIndex AlbumsByYear])
  = rangeDDLs ∅ ([ast.DDL_CreateTable Albums] ++ [ast.DDL_CreateIndex AlbumsByYear]).
Proof.
  split.
  - pose proof (proj2 (alter_table_add_constraint_skipped_others_rejected
                         (alter "Albums" (ast.DropColumn (ident "Label")))
                         [ast.DDL_CreateTable Albums] [ast.DDL_CreateIndex AlbumsByYear]))
      as Hrejected.
    simpl in Hrejected. exact Hrejected.
  - exact (proj2 (alter_table_add_constraint_skipped_others_rejected
                    (alter "Albums" (ast.AddTableConstraint (Some (ident "FK_Singer"))))
                    [ast.DDL_CreateTable Albums] [ast.DDL_CreateIndex AlbumsByYear])).
Defined.

(** C7 on the example: a file with a lone DROP TABLE loads as the empty
    catalog, without an error. *)
Example drop_table_loads_empty_catalog :
  ParseDDLs "drop_table.sql" "DROP TABLE Singers" = Ret [ast.OtherDDL "*ast.DropTable"] /\
  NewSpannerLoaderFromDDL "drop_table.sql" = Ret {| tables := ∅ |}.
Proof. split; vm_compute; reflexivity. Qed.

End Examples.


(** * Further properties of the catalog builder *)

Section BuilderFacts.
Context `{External}.

Implicit Types (t : gmap string tableOrView) (ddls pre suf : list ast.DDL).

(** What one statement does to the aggregate of [name]. *)
Lemma switchDDL_step t ddl t1 name :
  switchDDL t ddl = Ret t1 ->
  (is_Some (t1 !! name) <-> is_Some (t !! name) \/ declares name ddl = true) /\
  createTable (index_map t1 name)
  = match tableOf name ddl with
    | Some ct => Some ct
    | None => createTable (index_map t name)
    end /\
  createView (index_map t1 name)
  = match viewOf name ddl with
    | Some cv => Some cv
    | None => createView (index_map t name)
    end /\
  createIndexes (index_map t1 name)
  = createIndexes (index_map t name) ++ indexesOn name [ddl].
Proof.
  destruct ddl as [val|val|val|val|node]; simpl.
  - intros [= <-]. rewrite index_map_insert, lookup_insert.
    destruct (String.eqb_spec (ast.Name (ast.ct_Name val)) name) as [->|Hne].
    + rewrite !decide_True by done. simpl. rewrite app_nil_r.
      repeat split; eauto.
    + rewrite !decide_False by done. rewrite app_nil_r.
      repeat split; auto. by intros [|].
  - fold (target val). destruct (t !! target val) as [v|] eqn:Hv; [|discriminate].
    intros [= <-]. rewrite index_map_insert, lookup_insert.
    destruct (String.eqb_spec (target val) name) as [<-|Hne].
    + rewrite !decide_True by done. simpl. unfold index_map. rewrite Hv.
      repeat split; eauto.
    + rewrite !decide_False by done. rewrite app_nil_r.
      repeat split; auto. by intros [|].
  - destruct (ast.at_TableAlteration val); try discriminate.
    intros [= <-]. rewrite app_nil_r. repeat split; auto. by intros [|].
  - intros [= <-]. rewrite index_map_insert, lookup_insert.
    destruct (String.eqb_spec (ast.Name (ast.cv_Name val)) name) as [->|Hne].
    + rewrite !decide_True by done. simpl. rewrite app_nil_r.
      repeat split; eauto.
    + rewrite !decide_False by done. rewrite app_nil_r.
      repeat split; auto. by intros [|].
  - intros [= <-]. rewrite app_nil_r. repeat split; auto. by intros [|].
Qed.

Lemma indexesOn_cons name ddl ddls :
  indexesOn name (ddl :: ddls) = indexesOn name [ddl] ++ indexesOn name ddls.
Proof.
  destruct ddl as [val|val|val|val|node]; simpl; try done.
  by destruct (String.eqb (target val) name).
Qed.

(** What a successful run of the loop does to the aggregate of [name]. *)
Lemma rangeDDLs_closed_form ddls : forall t t' name,
  rangeDDLs t ddls = Ret t' ->
  (is_Some (t' !! name) <-> is_Some (t !! name) \/ existsb (declares name) ddls = true) /\
  createTable (index_map t' name)
  = match lastTable name ddls with
    | Some ct => Some ct
    | None => createTable (index_map t name)
    end /\
  createView (index_map t' name)
  = match lastView name ddls with
    | Some cv => Some cv
    | None => createView (index_map t name)
    end /\
  createIndexes (index_map t' name)
  = createIndexes (index_map t name) ++ indexesOn name ddls.
Proof.
  induction ddls as [|ddl ddls IH]; intros t t' name Hrest; simpl in Hrest.
  - injection Hrest as <-. simpl. rewrite app_nil_r. repeat split; auto. by intros [|].
  - destruct (switchDDL t ddl) as [t1| |] eqn:Hstep; try discriminate.
    destruct (switchDDL_step _ _ _ name Hstep) as (Hdom1 & Htab1 & Hview1 & Hix1).
    destruct (IH _ _ name Hrest) as (Hdom & Htab & Hview & Hix).
    rewrite Htab, Hview, Hix, Htab1, Hview1, Hix1, Hdom, Hdom1.
    rewrite (indexesOn_cons name ddl ddls), <- app_assoc.
    cbn [lastTable lastView existsb]. rewrite orb_true_iff.
    repeat split; try tauto.
    + by destruct (lastTable name ddls).
    + by destruct (lastView name ddls).
Qed.

(** When the loop gets through, from a map whose names are [declared]. *)
Lemma rangeDDLs_succeeds_iff ddls : forall t declared,
  (forall n, n ∈ declared <-> is_Some (t !! n)) ->
  (exists t', rangeDDLs t ddls = Ret t') <->
  aggregatesPrecedeIndexes declared ddls = true /\ forallb acceptedAlter ddls = true.
Proof.
  induction ddls as [|ddl ddls IH]; intros t declared Hdecl; simpl.
  { split; eauto. }
  destruct ddl as [val|val|val|val|node]; simpl.
  - rewrite <- IH; [done|]. intros n. rewrite elem_of_cons, lookup_insert, Hdecl.
    case_decide; subst; split; eauto. intros [->|]; done.
  - fold (target val). rewrite andb_true_iff.
    destruct (t !! target val) as [v|] eqn:Hv.
    + assert (existsb (String.eqb (target val)) declared = true) as ->.
      { apply existsb_exists. exists (target val). split; [|apply String.eqb_refl].
        apply list_elem_of_In, Hdecl. by rewrite Hv. }
      rewrite (IH _ declared); [tauto|]. intros n. rewrite lookup_insert, Hdecl.
      case_decide; [|done]. subst n. rewrite Hv. split; eauto.
    + split; [intros [? ?]; discriminate|].
      intros [[Hin%existsb_eqb_elem_of%Hdecl _] _]. rewrite Hv in Hin.
      by destruct Hin.
  - destruct (ast.at_TableAlteration val); simpl;
      try (split; [intros [? ?]; discriminate|intros [_ ?]; discriminate]).
    by rewrite <- IH.
  - rewrite <- IH; [done|]. intros n. rewrite elem_of_cons, lookup_insert, Hdecl.
    case_decide; subst; split; eauto. intros [->|]; done.
  - by rewrite <- IH.
Qed.

(** The aggregates stay non-empty and under their own name. *)
Lemma switchDDL_keeps_aggregates t ddl t1 :
  (forall n tbl, t !! n = Some tbl ->
     (is_Some (createTable tbl) \/ is_Some (createView tbl)) /\ keyedBy n tbl) ->
  switchDDL t ddl = Ret t1 ->
  forall n tbl, t1 !! n = Some tbl ->
     (is_Some (createTable tbl) \/ is_Some (createView tbl)) /\ keyedBy n tbl.
Proof.
  intros Hinv Hstep n tbl.
  assert (forall k, keyedBy k (index_map t k)) as Hzero.
  { intros k. unfold index_map. destruct (t !! k) as [v|] eqn:Hv.
    - by apply Hinv.
    - repeat split; try discriminate. constructor. }
  destruct ddl as [val|val|val|val|node]; simpl in Hstep.
  - injection Hstep as <-. rewrite lookup_insert. case_decide; [|by apply Hinv].
    subst n. intros [= <-]. simpl. split; [eauto|].
    destruct (Hzero (ast.Name (ast.ct_Name val))) as (_ & Hv & Hix).
    repeat split; simpl; auto. by intros ct [= <-].
  - fold (target val) in Hstep.
    destruct (t !! target val) as [v|] eqn:Hv; [|discriminate].
    injection Hstep as <-. rewrite lookup_insert. case_decide; [|by apply Hinv].
    subst n. intros [= <-]. simpl.
    destruct (Hinv _ _ Hv) as (Hdef & Ht & Hvw & Hix).
    repeat split; simpl; auto. apply Forall_app. split; [done|]. by constructor.
  - destruct (ast.at_TableAlteration val); try discriminate.
    injection Hstep as <-. by apply Hinv.
  - injection Hstep as <-. rewrite lookup_insert. case_decide; [|by apply Hinv].
    subst n. intros [= <-]. simpl. split; [eauto|].
    destruct (Hzero (ast.Name (ast.cv_Name val))) as (Ht & _ & Hix).
    repeat split; simpl; auto. by intros cv [= <-].
  - injection Hstep as <-. by apply Hinv.
Qed.

Lemma rangeDDLs_keeps_aggregates ddls : forall t t',
  (forall n tbl, t !! n = Some tbl ->
     (is_Some (createTable tbl) \/ is_Some (createView tbl)) /\ keyedBy n tbl) ->
  rangeDDLs t ddls = Ret t' ->
  forall n tbl, t' !! n = Some tbl ->
     (is_Some (createTable tbl) \/ is_Some (createView tbl)) /\ keyedBy n tbl.
Proof.
  induction ddls as [|ddl ddls IH]; intros t t' Hinv; simpl.
  - by intros [= <-].
  - destruct (switchDDL t ddl) as [t1| |] eqn:Hstep; try discriminate.
    apply IH. by apply (switchDDL_keeps_aggregates t ddl).
Qed.

End BuilderFacts.

Section BuilderExtras.
Context `{External}.

Implicit Types (t : gmap string tableOrView) (ddls pre suf : list ast.DDL).

(** X1.  The build succeeds exactly when every create-index statement comes
    after a create-table or create-view statement of its target name and no
    alter-table statement other than add-constraint occurs. *)
Theorem build_succeeds_iff ddls :
  (exists t, rangeDDLs ∅ ddls = Ret t) <->
  aggregatesPrecedeIndexes [] ddls = true /\ forallb acceptedAlter ddls = true.
Proof.
  apply rangeDDLs_succeeds_iff. intros n. rewrite lookup_empty. split.
  - by intros ?%elem_of_nil.
  - by intros [? ?].
Qed.

(** X2.  After a successful build a name is registered exactly when a
    create-table or create-view statement declares it, and its aggregate
    holds the last table-definition and the last view-definition given to
    the name and the indexes declared on it, in declaration order. *)
Theorem built_catalog_closed_form ddls t name :
  rangeDDLs ∅ ddls = Ret t ->
  t !! name
  = if existsb (declares name) ddls
    then Some {| createTable := lastTable name ddls;
                 createIndexes := indexesOn name ddls;
                 createView := lastView name ddls |}
    else None.
Proof.
  intros Hr.
  destruct (rangeDDLs_closed_form ddls ∅ t name Hr) as (Hdom & Htab & Hview & Hix).
  unfold index_map in Htab, Hview, Hix. rewrite lookup_empty in *. simpl in *.
  destruct (existsb (declares name) ddls).
  - destruct (t !! name) as [[ct ixs cv]|] eqn:Ht.
    + simpl in *. subst. f_equal. f_equal.
      * by destruct (lastTable name ddls).
      * by destruct (lastView name ddls).
    + destruct (proj2 Hdom) as [? ?]; [by right|done].
  - destruct (t !! name) as [tbl|] eqn:Ht; [|done].
    destruct (proj1 Hdom) as [[? ?]|?]; eauto; done.
Qed.

(** X3.  In a built catalog every aggregate carries a table-definition or a
    view-definition, and its definitions bear the name it is registered
    under: the table and the view are named like the key, the indexes are
    indexes on the key. *)
Theorem built_aggregates_defined_and_keyed ddls t name tbl :
  rangeDDLs ∅ ddls = Ret t ->
  t !! name = Some tbl ->
  (is_Some (createTable tbl) \/ is_Some (createView tbl)) /\ keyedBy name tbl.
Proof.
  intros Hr. apply (rangeDDLs_keeps_aggregates ddls ∅ t); [|done].
  intros n tbl0. by rewrite lookup_empty.
Qed.

(** X4.  The build never panics, and when it fails its error is the
    undefined-table error of a create-index statement of the sequence or the
    unsupported-statement error of one of its alter-table statements that is
    not an add-constraint. *)
Theorem build_failure_names_a_statement ddls :
  (forall p, rangeDDLs ∅ ddls ≠ Panic p) /\
  (forall e,
      rangeDDLs ∅ ddls = Fail e ->
      (exists ix,
          ast.DDL_CreateIndex ix ∈ ddls /\
          e = "table '" +:+ target ix +:+ "' is undefined, but got '"
              +:+ SQL (ast.DDL_CreateIndex ix) +:+ "'") \/
      (exists val,
          ast.DDL_AlterTable val ∈ ddls /\
          isAddTableConstraint (ast.at_TableAlteration val) = false /\
          e = "stmt should be CreateTable, CreateIndex or AlterTableAddConstraint, but got '"
              +:+ SQL (ast.DDL_AlterTable val) +:+ "'")).
Proof.
  split; [intros p; apply rangeDDLs_no_panic|].
  intros e (pre & ddl & suf & t & -> & _ & Hsw)%rangeDDLs_Fail_inv.
  assert (ddl ∈ pre ++ ddl :: suf) as Hin by (apply elem_of_app; right; left).
  destruct ddl as [val|val|val|val|node]; simpl in Hsw; try discriminate.
  - fold (target val) in Hsw. destruct (t !! target val); [discriminate|].
    injection Hsw as <-. left. by exists val.
  - destruct (ast.at_TableAlteration val) eqn:Ealt; try discriminate;
      injection Hsw as <-; right; exists val; rewrite Ealt; by repeat split.
Qed.

(** X5.  Loading a sequence in two parts: when the first part builds the
    map [t], the whole sequence gives what the second part gives from [t];
    when the first part fails, the whole sequence fails with the same error
    and the second part is not looked at. *)
Theorem build_of_concatenation pre suf :
  (forall t, rangeDDLs ∅ pre = Ret t -> rangeDDLs ∅ (pre ++ suf) = rangeDDLs t suf) /\
  (forall e, rangeDDLs ∅ pre = Fail e -> rangeDDLs ∅ (pre ++ suf) = Fail e).
Proof.
  rewrite rangeDDLs_app. split; intros x Hx; by rewrite Hx.
Qed.

End BuilderExtras.

(** * Further properties of the accessors *)

Section AccessorExtras.
Context `{External}.

Implicit Types (s : SpannerLoaderFromDDL) (tbl : tableOrView).

(** The first index of a name, or none. *)
Lemma first_index_of_name (index : string) (ixs : list ast.CreateIndex) :
  Forall (fun j => ast.Name (ast.ci_Name j) ≠ index) ixs \/
  exists pre ix suf,
    ixs = pre ++ ix :: suf /\
    Forall (fun j => ast.Name (ast.ci_Name j) ≠ index) pre /\
    ast.Name (ast.ci_Name ix) = index.
Proof.
  induction ixs as [|j ixs IH]; [by left|].
  destruct (String.eqb_spec (ast.Name (ast.ci_Name j)) index) as [Heq|Hne].
  - right. exists [], j, ixs. by repeat split.
  - destruct IH as [Hall|(pre & ix & suf & -> & Hpre & Hix)].
    + left. by constructor.
    + right. exists (j :: pre), ix, suf. repeat split; [|done]. by constructor.
Qed.

Lemma primaryKeyColumnList_Ret s table cols :
  primaryKeyColumnList s table = Ret cols ->
  cols = [] \/ exists ct, cols = keyColumns (ast.ct_PrimaryKeys ct).
Proof.
  unfold primaryKeyColumnList.
  destruct (tables s !! table) as [tbl|]; [|intros [= <-]; by left].
  destruct (createView tbl) as [v|]; simpl.
  - destruct (baseTablesForViewDDL _) as [sourceTable| |]; simpl; try discriminate.
    destruct (createTable _) as [ct|]; [|discriminate].
    intros [= <-]. right. exists ct. apply appendKeys_keyColumns.
  - destruct (createTable tbl) as [ct|]; [|discriminate].
    intros [= <-]. right. exists ct. apply appendKeys_keyColumns.
Qed.

Lemma keyColumns_SeqNo keys :
  models.SeqNo <$> keyColumns keys
  = (fun i : nat => Z.of_nat i + 1) <$> seq 0 (length keys).
Proof.
  unfold keyColumns. rewrite fmap_imap.
  rewrite <- (imap_seq_0 keys (fun i => Z.of_nat i + 1)). by apply imap_ext.
Qed.

Lemma keyColumns_Storing keys :
  models.Storing <$> keyColumns keys = replicate (length keys) false.
Proof.
  unfold keyColumns. rewrite fmap_imap.
  rewrite (imap_ext _ (const (fun _ => false))) by done.
  rewrite imap_const. by apply const_fmap.
Qed.

(** X6.  For a name that is not registered, [IndexList] and
    [IndexColumnList], whatever the index name (PRIMARY_KEY included),
    return the empty list and no error. *)
Theorem unregistered_name_gives_empty_lists s T :
  tables s !! T = None ->
  IndexList s T = Ret [] /\
  forall index, IndexColumnList s T index = Ret [].
Proof.
  intros Hnone. split.
  - unfold IndexList, index_map. by rewrite Hnone.
  - intros index. unfold IndexColumnList, primaryKeyColumnList, index_map.
    rewrite Hnone. by destruct (String.eqb index "PRIMARY_KEY").
Qed.

(** X7.  On the catalog of a successful build, [IndexList] of a name
    returns the descriptors (name, uniqueness) of the create-index
    statements on that name, in declaration order. *)
Theorem IndexList_of_built_catalog ddls t name :
  rangeDDLs ∅ ddls = Ret t ->
  IndexList {| tables := t |} name
  = Ret (indexDescriptor <$> indexesOn name ddls).
Proof.
  intros Hr. unfold IndexList. rewrite IndexList_range_spec. simpl.
  destruct (rangeDDLs_closed_form ddls ∅ t name Hr) as (_ & _ & _ & ->).
  unfold index_map. by rewrite lookup_empty.
Qed.

(** X8.  [IndexColumnList] and [IndexList] agree on the index names: for an
    index name other than PRIMARY_KEY that [IndexList] does not list,
    [IndexColumnList] is empty; for one that it lists, [IndexColumnList]
    returns the storing and key columns of an index of the table with that
    name. *)
Theorem IndexColumnList_agrees_with_IndexList s T index l :
  index ≠ "PRIMARY_KEY" ->
  IndexList s T = Ret l ->
  (index ∉ models.IndexName <$> l -> IndexColumnList s T index = Ret []) /\
  (index ∈ models.IndexName <$> l ->
   exists ix,
     ix ∈ createIndexes (index_map (tables s) T) /\
     ast.Name (ast.ci_Name ix) = index /\
     IndexColumnList s T index
     = Ret (storingColumns ix ++ keyColumns (ast.ci_Keys ix))).
Proof.
  intros Hne. unfold IndexList. rewrite IndexList_range_spec. simpl.
  intros [= <-]. rewrite IndexColumnList_other by done.
  set (ixs := createIndexes (index_map (tables s) T)).
  rewrite <- list_fmap_compose.
  destruct (first_index_of_name index ixs)
    as [Hall|(pre & ix & suf & Hixs & Hpre & Hix)].
  - split.
    + intros _. rewrite <- (app_nil_r ixs). by rewrite scanIndexes_skip.
    + intros (j & Hj & Hin)%list_elem_of_fmap. exfalso.
      rewrite Forall_forall in Hall. by apply (Hall j Hin).
  - split.
    + intros Hnot. exfalso. apply Hnot, list_elem_of_fmap. exists ix.
      split; [done|]. rewrite Hixs. apply elem_of_app. right. left.
    + intros _. exists ix. split; [|split; [done|]].
      * rewrite Hixs. apply elem_of_app. right. left.
      * by rewrite Hixs, scanIndexes_skip, scanIndexes_hit.
Qed.

(** X9.  Every list [IndexColumnList] returns has the same layout: first
    the storing entries, with sequence number 0 and the storing flag set,
    then the key entries, with the storing flag clear and the sequence
    numbers 1, 2, ..., in this order.  For PRIMARY_KEY there are no storing
    entries. *)
Theorem IndexColumnList_layout s T index cols :
  IndexColumnList s T index = Ret cols ->
  exists k m : nat,
    (index = "PRIMARY_KEY" -> k = 0%nat) /\
    length cols = (k + m)%nat /\
    models.SeqNo <$> cols
    = replicate k 0 ++ ((fun i : nat => Z.of_nat i + 1) <$> seq 0 m) /\
    models.Storing <$> cols = replicate k true ++ replicate m false.
Proof.
  assert (forall keys, exists m : nat,
             length (keyColumns keys) = m /\
             models.SeqNo <$> keyColumns keys
             = (fun i : nat => Z.of_nat i + 1) <$> seq 0 m /\
             models.Storing <$> keyColumns keys = replicate m false) as Hkeys.
  { intros keys. exists (length keys).
    by rewrite keyColumns_length, keyColumns_SeqNo, keyColumns_Storing. }
  destruct (String.eqb_spec index "PRIMARY_KEY") as [->|Hne].
  - rewrite IndexColumnList_PRIMARY_KEY.
    intros [->|[ct ->]]%primaryKeyColumnList_Ret.
    + by exists 0%nat, 0%nat.
    + destruct (Hkeys (ast.ct_PrimaryKeys ct)) as (m & Hlen & Hseq & Hst).
      exists 0%nat, m. by rewrite Hlen, Hseq, Hst.
  - rewrite IndexColumnList_other by done. intros [= <-].
    destruct (first_index_of_name index (createIndexes (index_map (tables s) T)))
      as [Hall|(pre & ix & suf & -> & Hpre & Hix)].
    + rewrite <- (app_nil_r (createIndexes _)), scanIndexes_skip by done.
      by exists 0%nat, 0%nat.
    + rewrite scanIndexes_skip, scanIndexes_hit by done. simpl.
      destruct (Hkeys (ast.ci_Keys ix)) as (m & Hlen & Hseq & Hst).
      unfold storingColumns. destruct (ast.ci_Storing ix) as [st|].
      * exists (length (ast.Columns st)), m.
        rewrite !fmap_app, length_app, length_map, Hlen, Hseq, Hst.
        repeat split; [done|..]; f_equal.
        -- rewrite <- list_fmap_compose. by apply const_fmap.
        -- rewrite <- list_fmap_compose. by apply const_fmap.
      * exists 0%nat, m. simpl. by rewrite Hlen, Hseq, Hst.
Qed.

(** X10.  When the stored text of a view does not parse again, the parse
    error is the error of [IndexColumnList] at PRIMARY_KEY, unchanged,
    whether or not the name also carries a table-definition. *)
Theorem view_parse_error_is_returned s V tbl v e :
  tables s !! V = Some tbl ->
  createView tbl = Some v ->
  ParseDDL (SQL (ast.DDL_CreateView v)) = Fail e ->
  IndexColumnList s V "PRIMARY_KEY" = Fail e.
Proof.
  intros Htbl Hview Hparse.
  rewrite IndexColumnList_PRIMARY_KEY, (primaryKeyColumnList_view _ _ tbl v) by done.
  unfold baseTablesForViewDDL. by rewrite Hparse.
Qed.

(** X11.  A view over a single table that is registered as a plain table
    (with a table-definition, without a view-definition) has the primary
    key of that table: [IndexColumnList] at PRIMARY_KEY gives the same
    answer for the view and for the table. *)
Theorem view_key_equals_base_table_key s V tbl v v' base btbl ct :
  tables s !! V = Some tbl ->
  createView tbl = Some v ->
  ParseDDL (SQL (ast.DDL_CreateView v)) = Ret (ast.DDL_CreateView v') ->
  ast.cv_Query v' = ast.Select (Some {| ast.Source := ast.TableName base |}) ->
  tables s !! ast.Name base = Some btbl ->
  createTable btbl = Some ct ->
  createView btbl = None ->
  IndexColumnList s V "PRIMARY_KEY"
  = IndexColumnList s (ast.Name base) "PRIMARY_KEY".
Proof.
  intros Htbl Hview Hparse Hq Hbase Hct Hnoview.
  rewrite !IndexColumnList_PRIMARY_KEY.
  rewrite (primaryKeyColumnList_view _ _ tbl v) by done.
  rewrite (primaryKeyColumnList_table _ _ btbl) by done.
  rewrite (baseTablesForViewDDL_source _ v' _ Hparse Hq). simpl.
  unfold index_map. by rewrite Hbase.
Qed.

End AccessorExtras.

(** * Properties of [ColumnList], [TableList], [ParamN] and [ProcsBySchema] *)

Section ColumnFacts.
Context `{External} `{ColumnSource}.

Implicit Types (s : SpannerLoaderFromDDL) (tbl : tableOrView).

Lemma checkKeys_spec check pks x :
  x ∈ checkKeys check pks <->
  x ∈ check \/ x ∈ (fun k => ast.Name (ast.ik_Name k)) <$> pks.
Proof.
  revert check. induction pks as [|pk pks IH]; intros check; simpl.
  - split; [by left|]. intros [|?%elem_of_nil]; done.
  - rewrite IH, elem_of_union, elem_of_singleton, elem_of_cons. tauto.
Qed.

Lemma ColumnList_range_spec ct i cols columns :
  ColumnList_range (checkKeys ∅ (ast.ct_PrimaryKeys ct)) (Z.of_nat i) cols columns
  = cols ++ imap (fun j c => columnDescriptor ct (i + j) c) columns.
Proof.
  revert i cols. induction columns as [|c columns IH]; intros i cols; simpl.
  - by rewrite app_nil_r.
  - replace (Z.of_nat i + 1) with (Z.of_nat (S i)) by lia.
    rewrite IH, <- app_assoc. simpl. f_equal. f_equal.
    + unfold columnDescriptor. rewrite Nat.add_0_r. f_equal; [lia|].
      apply bool_decide_ext. rewrite checkKeys_spec. unfold keyNames.
      split; [intros [?%elem_of_empty|]; done|by right].
    + apply imap_ext. intros j c' _. simpl. f_equal. lia.
Qed.

Lemma ColumnList_table s name ct :
  createTable (index_map (tables s) name) = Some ct ->
  ColumnList s name = Ret (imap (columnDescriptor ct) (ct_Columns ct)).
Proof.
  intros Hct. unfold ColumnList. rewrite Hct.
  by rewrite (ColumnList_range_spec ct 0 []).
Qed.

Lemma keyColumns_names keys :
  models.ColumnName <$> keyColumns keys = (fun k => ast.Name (ast.ik_Name k)) <$> keys.
Proof.
  unfold keyColumns. rewrite fmap_imap.
  rewrite (imap_ext _ (const (fun k => ast.Name (ast.ik_Name k)))) by done.
  apply imap_const.
Qed.

(** X12.  For a name with a table-definition, [ColumnList] returns one
    column per declared column, in declaration order: the column at
    position [i] (from 0) has ordinal [i + 1], the declared name, the
    rendered type and the not-null flag, is flagged primary-key exactly when
    its name is among the declared primary-key names (whatever their order),
    and is flagged generated exactly when it has a generation expression. *)
Theorem ColumnList_of_table s name ct :
  createTable (index_map (tables s) name) = Some ct ->
  exists cols,
    ColumnList s name = Ret cols /\
    length cols = length (ct_Columns ct) /\
    forall (i : nat) c,
      ct_Columns ct !! i = Some c ->
      cols !! i
      = Some {| models.FieldOrdinal := Z.of_nat i + 1;
                models.Col_ColumnName := ast.Name (ast.cd_Name c);
                models.DataType := TypeSQL (ast.cd_Type c);
                models.NotNull := ast.cd_NotNull c;
                models.IsPrimaryKey :=
                  bool_decide (ast.Name (ast.cd_Name c) ∈ keyNames ct);
                models.IsGenerated :=
                  bool_decide (is_Some (ast.cd_GeneratedExpr c)) |}.
Proof.
  intros Hct. eexists. split; [by apply ColumnList_table|]. split.
  - by rewrite length_imap.
  - intros i c Hc. rewrite list_lookup_imap, Hc. simpl.
    unfold columnDescriptor. do 2 f_equal.
    destruct (ast.cd_GeneratedExpr c); [by rewrite bool_decide_eq_true_2|].
    rewrite bool_decide_eq_false_2; [done|]. by intros [? ?].
Qed.

(** X13.  [ColumnList] panics on a nil table-definition exactly when the
    name is not registered with a table-definition; so it panics for a name
    that is not registered at all, for which [IndexList] and
    [IndexColumnList] return empty lists. *)
Theorem ColumnList_panics_without_table s name :
  (ColumnList s name = Panic NilDereference <->
   tables s !! name ≫= createTable = None) /\
  (tables s !! name = None -> ColumnList s name = Panic NilDereference).
Proof.
  unfold ColumnList, index_map.
  destruct (tables s !! name) as [tbl|]; simpl.
  - destruct (createTable tbl); split; done.
  - by split.
Qed.

(** X14.  For a plain table (table-definition, no view-definition),
    [ColumnList] and [IndexColumnList] at PRIMARY_KEY agree: a column is
    flagged primary-key exactly when its name is the name of an entry of the
    primary-key list. *)
Theorem primary_key_flags_agree_with_primary_key_list s T tbl ct cols pk c :
  tables s !! T = Some tbl ->
  createTable tbl = Some ct ->
  createView tbl = None ->
  ColumnList s T = Ret cols ->
  IndexColumnList s T "PRIMARY_KEY" = Ret pk ->
  c ∈ cols ->
  models.IsPrimaryKey c = true <-> models.Col_ColumnName c ∈ models.ColumnName <$> pk.
Proof.
  intros Htbl Hct Hview Hcols Hpk Hin.
  rewrite (ColumnList_table s T ct) in Hcols
    by (unfold index_map; by rewrite Htbl).
  injection Hcols as <-.
  rewrite IndexColumnList_PRIMARY_KEY, (primaryKeyColumnList_table _ _ tbl) in Hpk by done.
  unfold primaryKeysOf in Hpk. rewrite Hct in Hpk. injection Hpk as <-.
  rewrite keyColumns_names.
  apply list_elem_of_lookup in Hin as [i Hi].
  rewrite list_lookup_imap in Hi.
  destruct (ct_Columns ct !! i) as [cd|]; [|discriminate].
  injection Hi as <-. simpl. apply bool_decide_eq_true.
Qed.

Lemma lastView_no_views name ddls :
  forallb (fun ddl => negb (isCreateView ddl)) ddls = true ->
  lastView name ddls = None.
Proof.
  induction ddls as [|ddl ddls IH]; simpl; [done|].
  intros [Hd Hrest]%andb_prop. rewrite (IH Hrest). by destruct ddl.
Qed.

Lemma tableDescriptors_names (entries : list (string * tableOrView)) :
  Forall (fun e => exists ct, createTable e.2 = Some ct /\ ast.Name (ast.ct_Name ct) = e.1)
         entries ->
  models.TableName <$> tableDescriptors entries.*2 = entries.*1.
Proof.
  induction 1 as [|[n tbl] entries (ct & Hct & Hname) _ IH]; [done|].
  simpl in Hct, Hname. rewrite !fmap_cons. simpl.
  unfold tableDescriptors in *. simpl. rewrite Hct. simpl.
  f_equal; [done|]. exact IH.
Qed.

Lemma rangeDDLs_registered ddls t n :
  rangeDDLs ∅ ddls = Ret t ->
  is_Some (t !! n) <-> existsb (declares n) ddls = true.
Proof.
  intros Hr. destruct (rangeDDLs_closed_form ddls ∅ t n Hr) as (-> & _).
  rewrite lookup_empty. split; [|by right]. by intros [[? ?]|].
Qed.

(** X15.  On the catalog of a successful build of statements without
    create-view, every run of [TableList] returns a list: it names exactly
    the declared tables, each once, under the name the table was declared
    with, and every entry is flagged manual-primary-key. *)
Theorem TableList_of_build_without_views ddls t r :
  rangeDDLs ∅ ddls = Ret t ->
  forallb (fun ddl => negb (isCreateView ddl)) ddls = true ->
  TableList {| tables := t |} r ->
  exists l,
    r = Ret l /\
    NoDup (models.TableName <$> l) /\
    (forall n, n ∈ models.TableName <$> l <-> existsb (declares n) ddls = true) /\
    Forall (fun d => models.ManualPk d = true) l.
Proof.
  intros Hr Hnoview Hrun.
  assert (forall n tbl, t !! n = Some tbl ->
            exists ct, createTable tbl = Some ct /\ ast.Name (ast.ct_Name ct) = n)
    as Htables.
  { intros n tbl Hn.
    assert (forall k v, (∅ : gmap string tableOrView) !! k = Some v ->
              (is_Some (createTable v) \/ is_Some (createView v)) /\ keyedBy k v)
      as Hinv0 by (intros k v; by rewrite lookup_empty).
    destruct (rangeDDLs_keeps_aggregates ddls ∅ t Hinv0 Hr n tbl Hn)
      as ([[ct Hct]|[cv Hcv]] & Hkeyed & _).
    - eauto.
    - destruct (rangeDDLs_closed_form ddls ∅ t n Hr) as (_ & _ & Hv & _).
      rewrite (lastView_no_views n ddls Hnoview) in Hv.
      unfold index_map in Hv. rewrite Hn, lookup_empty in Hv. simpl in Hv.
      congruence. }
  destruct (TableList_all_tables {| tables := t |} r) as (l & -> & Hperm & Hpk);
    [|done|].
  { simpl. intros n tbl Hn. destruct (Htables n tbl Hn) as (ct & -> & _). eauto. }
  simpl in Hperm.
  assert (models.TableName <$> l ≡ₚ (map_to_list t).*1) as Hnames.
  { rewrite Hperm. rewrite tableDescriptors_names; [done|].
    apply Forall_forall. intros [n tbl] Hin%elem_of_map_to_list. by apply Htables. }
  exists l. repeat split; try done.
  - rewrite Hnames. apply NoDup_fst_map_to_list.
  - rewrite Hnames. intros ([n' tbl] & -> & Hin%elem_of_map_to_list)%list_elem_of_fmap.
    simpl. apply (rangeDDLs_registered ddls t n' Hr). by rewrite Hin.
  - rewrite Hnames. intros Hdecl.
    apply (rangeDDLs_registered ddls t n Hr) in Hdecl as [tbl Hn].
    apply list_elem_of_fmap. exists (n, tbl). split; [done|].
    by apply elem_of_map_to_list.
Qed.

End ColumnFacts.

Section Formatting.

Lemma decimal_inj n m : decimal n = decimal m -> n = m.
Proof.
  unfold decimal. intros Heq. apply DecimalZ.to_int_inj.
  assert (forall z, Z.to_int z ≠ Decimal.Pos Decimal.Nil /\
                    Z.to_int z ≠ Decimal.Neg Decimal.Nil) as Hnonnil.
  { intros [|p|p]; simpl; split; try discriminate;
      intros [= Hp]; by apply DecimalPos.Unsigned.to_uint_nonnil in Hp. }
  destruct (Hnonnil n) as [Hn1 Hn2], (Hnonnil m) as [Hm1 Hm2].
  pose proof (DecimalString.NilZero.isi _ Hn1 Hn2) as Hn.
  pose proof (DecimalString.NilZero.isi _ Hm1 Hm2) as Hm.
  rewrite Heq in Hn. congruence.
Qed.

(** X16.  [ParamN] gives distinct placeholders to distinct numbers, on
    whatever loader it is called: equal placeholders come from equal
    numbers. *)
Theorem ParamN_injective s s' n m :
  ParamN s n = ParamN s' m -> n = m.
Proof.
  unfold ParamN. simpl. intros [= Heq]. by apply decimal_inj.
Qed.

End Formatting.

Section Procs.
Context `{Database}.

Lemma ProcsBySchema_rows_Ret res rs :
  ProcsBySchema_rows res (Ret <$> rs) = Ret (res ++ (procOfRow <$> rs)).
Proof.
  revert res. induction rs as [|[[a b] c] rs IH]; intros res; simpl.
  - by rewrite app_nil_r.
  - by rewrite IH, <- app_assoc.
Qed.

Lemma ProcsBySchema_rows_Fail res rs e rest :
  ProcsBySchema_rows res ((Ret <$> rs) ++ Fail e :: rest) = Fail e.
Proof.
  revert res. induction rs as [|[[a b] c] rs IH]; intros res; simpl; [done|].
  apply IH.
Qed.

(** X17.  When the query succeeds and every row scans, [ProcsBySchema]
    returns one procedure per row, in the order of the rows, with the name,
    parameter types and return type of the row and every other field at its
    zero value. *)
Theorem ProcsBySchema_returns_rows_in_order schema rs :
  Query sqlstr schema = Ret (Ret <$> rs) ->
  ProcsBySchema schema = Ret (procOfRow <$> rs) /\
  Forall (fun p => models.Schema p = "" /\ models.FuncName p = "" /\
                   models.GoParameterTypes p = [] /\ models.GoReturnType p = "" /\
                   models.GoNilReturnType p = "") (procOfRow <$> rs).
Proof.
  intros Hq. split.
  - unfold ProcsBySchema. rewrite Hq. simpl. by rewrite ProcsBySchema_rows_Ret.
  - apply Forall_fmap, Forall_forall. by intros row _.
Qed.

(** X18.  [ProcsBySchema] returns the error of the query when the query
    fails, and the error of the first row that does not scan otherwise: the
    rows read before it are dropped and the rows after it are not read. *)
Theorem ProcsBySchema_returns_first_error schema e :
  (Query sqlstr schema = Fail e -> ProcsBySchema schema = Fail e) /\
  (forall rs rest,
      Query sqlstr schema = Ret ((Ret <$> rs) ++ Fail e :: rest) ->
      ProcsBySchema schema = Fail e).
Proof.
  unfold ProcsBySchema. split.
  - by intros ->.
  - intros rs rest ->. simpl. apply ProcsBySchema_rows_Fail.
Qed.

End Procs.

(** * The further properties on the example schema *)

Section MoreExamples.
#[local] Existing Instance Fixture.external.
#[local] Existing Instance FixtureColumns.columns.
#[local] Existing Instance FixtureColumns.database.

Import Fixture FixtureColumns.

Lemma built_catalog_closed_form_witness :
  rangeDDLs ∅ schema = Ret schemaMap /\
  schemaMap !! "Albums"
  = Some {| createTable := Some Albums;
            createIndexes := [AlbumsByTitle; AlbumsByYear];
            createView := None |} /\
  schemaMap !! "Nope" = None.
Proof.
  assert (rangeDDLs ∅ schema = Ret schemaMap) as Hr by (vm_compute; reflexivity).
  split; [exact Hr|]. split.
  - apply (built_catalog_closed_form schema schemaMap "Albums" Hr).
  - apply (built_catalog_closed_form schema schemaMap "Nope" Hr).
Defined.

Lemma built_aggregates_defined_and_keyed_witness :
  rangeDDLs ∅ schema = Ret schemaMap /\
  schemaMap !! "Albums" = Some AlbumsAggregate /\
  (is_Some (createTable AlbumsAggregate) \/ is_Some (createView AlbumsAggregate)) /\
  keyedBy "Albums" AlbumsAggregate.
Proof.
  assert (rangeDDLs ∅ schema = Ret schemaMap) as Hr by (vm_compute; reflexivity).
  assert (schemaMap !! "Albums" = Some AlbumsAggregate) as Ht by (vm_compute; reflexivity).
  split; [exact Hr|]. split; [exact Ht|].
  apply (built_aggregates_defined_and_keyed schema schemaMap "Albums" AlbumsAggregate Hr Ht).
Defined.

Lemma build_failure_names_a_statement_witness :
  rangeDDLs ∅ indexFirst
  = Fail "table 'Albums' is undefined, but got 'CREATE INDEX AlbumsByYear ON Albums (Year)'" /\
  ((exists ix,
       ast.DDL_CreateIndex ix ∈ indexFirst /\
       "table 'Albums' is undefined, but got 'CREATE INDEX AlbumsByYear ON Albums (Year)'"
       = "table '" +:+ target ix +:+ "' is undefined, but got '"
         +:+ SQL (ast.DDL_CreateIndex ix) +:+ "'") \/
   (exists val,
       ast.DDL_AlterTable val ∈ indexFirst /\
       isAddTableConstraint (ast.at_TableAlteration val) = false /\
       "table 'Albums' is undefined, but got 'CREATE INDEX AlbumsByYear ON Albums (Year)'"
       = "stmt should be CreateTable, CreateIndex or AlterTableAddConstraint, but got '"
         +:+ SQL (ast.DDL_AlterTable val) +:+ "'")).
Proof.
  assert (rangeDDLs ∅ indexFirst
          = Fail "table 'Albums' is undefined, but got 'CREATE INDEX AlbumsByYear ON Albums (Year)'")
    as Hr by (vm_compute; reflexivity).
  split; [exact Hr|].
  apply (proj2 (build_failure_names_a_statement indexFirst) _ Hr).
Defined.

Lemma build_of_concatenation_witness :
  rangeDDLs ∅ twoTables = Ret twoTablesMap /\
  rangeDDLs ∅ (twoTables ++ [ast.DDL_CreateIndex AlbumsByYear])
  = rangeDDLs twoTablesMap [ast.DDL_CreateIndex AlbumsByYear] /\
  rangeDDLs ∅ (indexFirst ++ twoTables)
  = Fail "table 'Albums' is undefined, but got 'CREATE INDEX AlbumsByYear ON Albums (Year)'".
Proof.
  assert (rangeDDLs ∅ twoTables = Ret twoTablesMap) as Hr by (vm_compute; reflexivity).
  split; [exact Hr|]. split.
  - apply (proj1 (build_of_concatenation twoTables [ast.DDL_CreateIndex AlbumsByYear]) _ Hr).
  - apply (proj2 (build_of_concatenation indexFirst twoTables)).
    vm_compute; reflexivity.
Defined.

Lemma unregistered_name_gives_empty_lists_witness :
  tables catalog !! "Nope" = None /\
  IndexList catalog "Nope" = Ret [] /\
  IndexColumnList catalog "Nope" "PRIMARY_KEY" = Ret [] /\
  IndexColumnList catalog "Nope" "AlbumsByYear" = Ret [].
Proof.
  assert (tables catalog !! "Nope" = None) as Hn by (vm_compute; reflexivity).
  destruct (unregistered_name_gives_empty_lists catalog "Nope" Hn) as [Hl Hc].
  split; [exact Hn|]. split; [exact Hl|]. split; apply Hc.
Defined.

Lemma IndexList_of_built_catalog_witness :
  rangeDDLs ∅ schema = Ret schemaMap /\
  IndexList {| tables := schemaMap |} "Albums"
  = Ret [indexDescriptor AlbumsByTitle; indexDescriptor AlbumsByYear].
Proof.
  assert (rangeDDLs ∅ schema = Ret schemaMap) as Hr by (vm_compute; reflexivity).
  split; [exact Hr|].
  apply (IndexList_of_built_catalog schema schemaMap "Albums" Hr).
Defined.

Lemma IndexColumnList_agrees_with_IndexList_witness :
  "AlbumsByYear" ≠ "PRIMARY_KEY" /\
  IndexList catalog "Albums"
  = Ret [indexDescriptor AlbumsByTitle; indexDescriptor AlbumsByYear] /\
  (exists ix,
      ix ∈ createIndexes (index_map (tables catalog) "Albums") /\
      ast.Name (ast.ci_Name ix) = "AlbumsByYear" /\
      IndexColumnList catalog "Albums" "AlbumsByYear"
      = Ret (storingColumns ix ++ keyColumns (ast.ci_Keys ix))).
Proof.
  assert ("AlbumsByYear" ≠ "PRIMARY_KEY") as Hne by discriminate.
  assert (IndexList catalog "Albums"
          = Ret [indexDescriptor AlbumsByTitle; indexDescriptor AlbumsByYear]) as Hl
    by (vm_compute; reflexivity).
  split; [exact Hne|]. split; [exact Hl|].
  apply (proj2 (IndexColumnList_agrees_with_IndexList catalog "Albums" "AlbumsByYear"
                  _ Hne Hl)).
  vm_compute. right. left.
Defined.

Lemma IndexColumnList_layout_witness :
  IndexColumnList catalog "Albums" "AlbumsByTitle"
  = Ret [ storingColumn (ident "Label"); storingColumn (ident "Year");
          keyColumn 1 (key "Title"); keyColumn 2 (key "AlbumId") ] /\
  exists k m : nat,
    ("AlbumsByTitle" = "PRIMARY_KEY" -> k = 0%nat) /\
    length [ storingColumn (ident "Label"); storingColumn (ident "Year");
             keyColumn 1 (key "Title"); keyColumn 2 (key "AlbumId") ] = (k + m)%nat /\
    models.SeqNo <$> [ storingColumn (ident "Label"); storingColumn (ident "Year");
                       keyColumn 1 (key "Title"); keyColumn 2 (key "AlbumId") ]
    = replicate k 0 ++ ((fun i : nat => Z.of_nat i + 1) <$> seq 0 m) /\
    models.Storing <$> [ storingColumn (ident "Label"); storingColumn (ident "Year");
                         keyColumn 1 (key "Title"); keyColumn 2 (key "AlbumId") ]
    = replicate k true ++ replicate m false.
Proof.
  assert (IndexColumnList catalog "Albums" "AlbumsByTitle"
          = Ret [ storingColumn (ident "Label"); storingColumn (ident "Year");
                  keyColumn 1 (key "Title"); keyColumn 2 (key "AlbumId") ]) as Hc
    by (vm_compute; reflexivity).
  split; [exact Hc|].
  apply (IndexColumnList_layout catalog "Albums" "AlbumsByTitle" _ Hc).
Defined.

Lemma view_parse_error_is_returned_witness :
  tables ghostCatalog !! "Ghost" = Some (aggregate None [] (Some GhostView)) /\
  ParseDDL (SQL (ast.DDL_CreateView GhostView)) = Fail "syntax error" /\
  IndexColumnList ghostCatalog "Ghost" "PRIMARY_KEY" = Fail "syntax error".
Proof.
  do 2 (split; [vm_compute; reflexivity|]).
  apply (view_parse_error_is_returned ghostCatalog "Ghost"
           (aggregate None [] (Some GhostView)) GhostView "syntax error");
    vm_compute; reflexivity.
Defined.

Lemma view_key_equals_base_table_key_witness :
  tables catalog !! "SingersView" = Some (aggregate None [] (Some SingersView)) /\
  tables catalog !! "Singers" = Some (aggregate (Some Singers) [] None) /\
  IndexColumnList catalog "SingersView" "PRIMARY_KEY"
  = IndexColumnList catalog "Singers" "PRIMARY_KEY".
Proof.
  do 2 (split; [vm_compute; reflexivity|]).
  apply (view_key_equals_base_table_key catalog "SingersView"
           (aggregate None [] (Some SingersView)) SingersView SingersView
           (ident "Singers") (aggregate (Some Singers) [] None) Singers);
    vm_compute; reflexivity.
Defined.

Lemma ColumnList_of_table_witness :
  createTable (index_map (tables catalog) "Albums") = Some Albums /\
  exists cols,
    ColumnList catalog "Albums" = Ret cols /\
    length cols = length (ct_Columns Albums) /\
    forall (i : nat) c,
      ct_Columns Albums !! i = Some c ->
      cols !! i
      = Some {| models.FieldOrdinal := Z.of_nat i + 1;
                models.Col_ColumnName := ast.Name (ast.cd_Name c);
                models.DataType := TypeSQL (ast.cd_Type c);
                models.NotNull := ast.cd_NotNull c;
                models.IsPrimaryKey :=
                  bool_decide (ast.Name (ast.cd_Name c) ∈ keyNames Albums);
                models.IsGenerated :=
                  bool_decide (is_Some (ast.cd_GeneratedExpr c)) |}.
Proof.
  assert (createTable (index_map (tables catalog) "Albums") = Some Albums) as Hct
    by (vm_compute; reflexivity).
  split; [exact Hct|].
  apply (ColumnList_of_table catalog "Albums" Albums Hct).
Defined.

Lemma ColumnList_panics_without_table_witness :
  tables catalog !! "SingersView" ≫= createTable = None /\
  ColumnList catalog "SingersView" = Panic NilDereference /\
  tables catalog !! "Nope" = None /\
  ColumnList catalog "Nope" = Panic NilDereference.
Proof.
  split; [vm_compute; reflexivity|]. split.
  - apply (proj1 (ColumnList_panics_without_table catalog "SingersView")).
    vm_compute; reflexivity.
  - split; [vm_compute; reflexivity|].
    apply (proj2 (ColumnList_panics_without_table catalog "Nope")).
    vm_compute; reflexivity.
Defined.

Lemma primary_key_flags_agree_with_primary_key_list_witness :
  tables catalog !! "Albums" = Some AlbumsAggregate /\
  ColumnList catalog "Albums" = Ret (imap (columnDescriptor Albums) AlbumsColumns) /\
  IndexColumnList catalog "Albums" "PRIMARY_KEY" = Ret (keyColumns (ast.ct_PrimaryKeys Albums)) /\
  (models.IsPrimaryKey (columnDescriptor Albums 0 (column "AlbumId" (ast.ScalarSchemaType "INT64") true false)) = true
   <-> "AlbumId" ∈ models.ColumnName <$> keyColumns (ast.ct_PrimaryKeys Albums)).
Proof.
  do 3 (split; [vm_compute; reflexivity|]).
  apply (primary_key_flags_agree_with_primary_key_list catalog "Albums"
           AlbumsAggregate Albums (imap (columnDescriptor Albums) AlbumsColumns)
           (keyColumns (ast.ct_PrimaryKeys Albums))
           (columnDescriptor Albums 0
              (column "AlbumId" (ast.ScalarSchemaType "INT64") true false)));
    try (vm_compute; reflexivity).
  left.
Defined.

Lemma TableList_of_build_without_views_witness :
  rangeDDLs ∅ twoTables = Ret twoTablesMap /\
  forallb (fun ddl => negb (isCreateView ddl)) twoTables = true /\
  forall r,
    TableList {| tables := twoTablesMap |} r ->
    exists l,
      r = Ret l /\
      NoDup (models.TableName <$> l) /\
      (forall n, n ∈ models.TableName <$> l <-> existsb (declares n) twoTables = true) /\
      Forall (fun d => models.ManualPk d = true) l.
Proof.
  assert (rangeDDLs ∅ twoTables = Ret twoTablesMap) as Hr by (vm_compute; reflexivity).
  split; [exact Hr|]. split; [reflexivity|].
  intros r. apply (TableList_of_build_without_views twoTables twoTablesMap r Hr).
  reflexivity.
Defined.

Lemma ParamN_injective_witness :
  ParamN catalog 12 = "@param12" /\
  ParamN catalog 12 = ParamN twoTablesCatalog 12 /\
  12 = 12.
Proof.
  split; [vm_compute; reflexivity|].
  assert (ParamN catalog 12 = ParamN twoTablesCatalog 12) as Heq by reflexivity.
  split; [exact Heq|].
  apply (ParamN_injective catalog twoTablesCatalog 12 12 Heq).
Defined.

Lemma ProcsBySchema_returns_rows_in_order_witness :
  Query sqlstr "public"
  = Ret (Ret <$> [ ("add", "integer, integer", "integer");
                   ("now_utc", "", "timestamp without time zone") ]) /\
  ProcsBySchema "public"
  = Ret (procOfRow <$> [ ("add", "integer, integer", "integer");
                         ("now_utc", "", "timestamp without time zone") ]).
Proof.
  assert (Query sqlstr "public"
          = Ret (Ret <$> [ ("add", "integer, integer", "integer");
                           ("now_utc", "", "timestamp without time zone") ])) as Hq
    by (vm_compute; reflexivity).
  split; [exact Hq|].
  apply (proj1 (ProcsBySchema_returns_rows_in_order "public" _ Hq)).
Defined.

Lemma ProcsBySchema_returns_first_error_witness :
  Query sqlstr "broken"
  = Ret ((Ret <$> [("add", "integer, integer", "integer")])
         ++ Fail "sql: Scan error on column index 1: converting NULL to string is unsupported"
         :: [Ret ("now_utc", "", "timestamp without time zone")]) /\
  ProcsBySchema "broken"
  = Fail "sql: Scan error on column index 1: converting NULL to string is unsupported".
Proof.
  assert (Query sqlstr "broken"
          = Ret ((Ret <$> [("add", "integer, integer", "integer")])
                 ++ Fail "sql: Scan error on column index 1: converting NULL to string is unsupported"
                 :: [Ret ("now_utc", "", "timestamp without time zone")])) as Hq
    by (vm_compute; reflexivity).
  split; [exact Hq|].
  apply (proj2 (ProcsBySchema_returns_first_error "broken" _) _ _ Hq).
Defined.

End MoreExamples.

(** * Views without a FROM source on the example schema *)

Section ViewExamples.
#[local] Existing Instance FixtureViews.external.

Import Fixture FixtureViews.

Lemma view_query_without_from_source_panics_witness :
  SQL (ast.DDL_CreateView UnionView)
  = "CREATE VIEW UnionView SQL SECURITY INVOKER AS SELECT * FROM Singers UNION ALL SELECT * FROM Albums" /\
  rangeDDLs ∅ views = Ret (tables viewsCatalog) /\
  tables viewsCatalog !! "UnionView" = Some (aggregate None [] (Some UnionView)) /\
  ParseDDL (SQL (ast.DDL_CreateView UnionView)) = Ret (ast.DDL_CreateView UnionView) /\
  IndexColumnList viewsCatalog "UnionView" "PRIMARY_KEY" = Panic InterfaceConversion /\
  IndexColumnList viewsCatalog "ParenView" "PRIMARY_KEY" = Panic InterfaceConversion /\
  IndexColumnList viewsCatalog "ConstView" "PRIMARY_KEY" = Panic NilDereference.
Proof.
  assert (tables viewsCatalog !! "UnionView" = Some (aggregate None [] (Some UnionView)))
    as Hunion by (vm_compute; reflexivity).
  assert (tables viewsCatalog !! "ParenView" = Some (aggregate None [] (Some ParenView)))
    as Hparen by (vm_compute; reflexivity).
  assert (tables viewsCatalog !! "ConstView" = Some (aggregate None [] (Some ConstView)))
    as Hconst by (vm_compute; reflexivity).
  assert (ParseDDL (SQL (ast.DDL_CreateView UnionView)) = Ret (ast.DDL_CreateView UnionView))
    as Hp1 by (vm_compute; reflexivity).
  assert (ParseDDL (SQL (ast.DDL_CreateView ParenView)) = Ret (ast.DDL_CreateView ParenView))
    as Hp2 by (vm_compute; reflexivity).
  assert (ParseDDL (SQL (ast.DDL_CreateView ConstView)) = Ret (ast.DDL_CreateView ConstView))
    as Hp3 by (vm_compute; reflexivity).
  split; [vm_compute; reflexivity|]. split; [vm_compute; reflexivity|].
  split; [exact Hunion|]. split; [exact Hp1|]. split; [|split].
  - destruct (view_query_without_from_source_panics viewsCatalog "UnionView"
                (aggregate None [] (Some UnionView)) UnionView UnionView
                Hunion eq_refl Hp1) as (Hc & _).
    apply (Hc _ eq_refl).
  - destruct (view_query_without_from_source_panics viewsCatalog "ParenView"
                (aggregate None [] (Some ParenView)) ParenView ParenView
                Hparen eq_refl Hp2) as (_ & Hs & _).
    apply (Hs _ eq_refl).
  - destruct (view_query_without_from_source_panics viewsCatalog "ConstView"
                (aggregate None [] (Some ConstView)) ConstView ConstView
                Hconst eq_refl Hp3) as (_ & _ & Hn).
    apply (Hn eq_refl).
Defined.

End ViewExamples.
